(** * CV text extraction and keyword scoring

    A shallow embedding of the scoring engine of the applicant tracker:
    [supabase/functions/parse-cv/index.ts] (the serverless extractor, the
    keyword scorer and the request handler), [src/utils/extractPdfText.ts]
    (the browser extractor), and what its callers in
    [src/pages/AdminDashboard.tsx] and [src/pages/Index.tsx] send to it.

    Strings.  A JavaScript string is a sequence of UTF-16 code units.  The
    development works with the code units below 256 (the Latin-1 block,
    which is the first 256 code points of Unicode): a JavaScript string is a
    Rocq [string], and an [ascii] is the code unit of that number.  On this
    alphabet [toLowerCase], the case folding of a regular expression with
    the [i] flag, [\s] and [\b] are written out exactly as ECMAScript
    defines them.

    Numbers are [Z].  A call that can throw returns an [option] (the
    [RegExp] constructor) or an [Outcome] (a promise of pdf.js). *)

From Stdlib Require Import Bool List ZArith NArith Lia Ascii String.
Import ListNotations.

Local Open Scope list_scope.
Local Open Scope string_scope.

(* ================================================================== *)
(** * Part I: the program *)
(* ================================================================== *)

(** ** Code units *)

Definition code (c : ascii) : N := N_of_ascii c.

Definition inRange (lo hi : N) (c : ascii) : bool :=
  (lo <=? code c)%N && (code c <=? hi)%N.

Definition isUpperAZ (c : ascii) : bool := inRange 65 90 c.
Definition isLowerAZ (c : ascii) : bool := inRange 97 122 c.
Definition isDigit (c : ascii) : bool := inRange 48 57 c.

(** The capital letters of Latin-1 outside ASCII: U+00C0..U+00DE without
    the multiplication sign U+00D7. *)
Definition isUpperLatin1 (c : ascii) : bool :=
  inRange 192 222 c && negb (code c =? 215)%N.

(** The small letters of Latin-1 that have a capital 32 places below:
    U+00E0..U+00FE without the division sign U+00F7. *)
Definition isLowerLatin1 (c : ascii) : bool :=
  inRange 224 254 c && negb (code c =? 247)%N.

(** [String.prototype.toLowerCase], one code unit. *)
Definition lowerChar (c : ascii) : ascii :=
  if isUpperAZ c || isUpperLatin1 c then ascii_of_N (code c + 32) else c.

(** The [Canonicalize] operation of a regular expression with the [i] flag
    and without the [u] flag: the code unit is mapped with [toUpperCase];
    the result is kept when it is a single code unit (and not an ASCII
    one for a non-ASCII input).  The micro sign U+00B5 and U+00FF have
    their capitals outside Latin-1 (U+039C and U+0178); the sharp s U+00DF
    has a capital of two code units and stays as it is. *)
Definition canonicalize (c : ascii) : N :=
  if isLowerAZ c || isLowerLatin1 c then (code c - 32)%N
  else if (code c =? 181)%N then 924%N
  else if (code c =? 255)%N then 376%N
  else code c.

(** The class escape [\s] (WhiteSpace and LineTerminator of ECMAScript):
    TAB, LF, VT, FF, CR, SP and the no-break space U+00A0. *)
Definition isWhiteSpace (c : ascii) : bool :=
  inRange 9 13 c || (code c =? 32)%N || (code c =? 160)%N.

(** [IsWordChar] of the assertion [\b] without the [u] flag:
    the characters of [[A-Za-z0-9_]]. *)
Definition isWordChar (c : ascii) : bool :=
  isUpperAZ c || isLowerAZ c || isDigit c || (code c =? 95)%N.

(** The same for a position that may be outside the input. *)
Definition isWordCharAt (o : option ascii) : bool :=
  match o with
  | Some c => isWordChar c
  | None => false
  end.

(** Every code unit of the alphabet, in ascending order. *)
Definition allChars : list ascii := map ascii_of_nat (seq 0 256).

(** ** Strings *)

Fixpoint chars (s : string) : list ascii :=
  match s with
  | EmptyString => []
  | String c r => c :: chars r
  end.

Fixpoint toLowerCase (s : string) : string :=
  match s with
  | EmptyString => EmptyString
  | String c r => String (lowerChar c) (toLowerCase r)
  end.

Fixpoint existsChar (p : ascii -> bool) (s : string) : bool :=
  match s with
  | EmptyString => false
  | String c r => p c || existsChar p r
  end.

Fixpoint startsWith (t k : string) : bool :=
  match k, t with
  | EmptyString, _ => true
  | String a k', String b t' => Ascii.eqb a b && startsWith t' k'
  | String _ _, EmptyString => false
  end.

(** [String.prototype.includes]: the search string starts at some index. *)
Fixpoint includes (t k : string) : bool :=
  if startsWith t k then true
  else match t with
       | EmptyString => false
       | String _ t' => includes t' k
       end.

Definition firstChar (s : string) : option ascii :=
  match s with
  | EmptyString => None
  | String c _ => Some c
  end.

Fixpoint lastCharFrom (prev : option ascii) (s : string) : option ascii :=
  match s with
  | EmptyString => prev
  | String c r => lastCharFrom (Some c) r
  end.

Definition lastChar (s : string) : option ascii := lastCharFrom None s.

Fixpoint take (n : nat) (s : string) : string :=
  match n, s with
  | S n', String c r => String c (take n' r)
  | _, _ => EmptyString
  end.

Fixpoint drop (n : nat) (s : string) : string :=
  match n, s with
  | S n', String _ r => drop n' r
  | _, _ => s
  end.

Definition strlen (s : string) : Z := Z.of_nat (String.length s).

(** [String.prototype.substring(start, end)]: both indices are clamped to
    [0 .. length] and swapped when [start] is the larger one. *)
Definition substring (s : string) (start end_ : Z) : string :=
  let clamp x := Z.min (Z.max x 0) (strlen s) in
  let from := Z.min (clamp start) (clamp end_) in
  let to := Z.max (clamp start) (clamp end_) in
  take (Z.to_nat (to - from)) (drop (Z.to_nat from) s).

(** [Array.prototype.join]. *)
Fixpoint join (sep : string) (l : list string) : string :=
  match l with
  | [] => ""
  | [x] => x
  | x :: r => x ++ sep ++ join sep r
  end.

(** [s.replace(/\s+/g, " ")]: every maximal run of white space becomes one
    space; [inRun] says that the previous code unit was white space. *)
Fixpoint collapseFrom (inRun : bool) (s : string) : string :=
  match s with
  | EmptyString => EmptyString
  | String c r =>
      if isWhiteSpace c
      then (if inRun then collapseFrom true r else String " " (collapseFrom true r))
      else String c (collapseFrom false r)
  end.

Definition collapseWhiteSpace (s : string) : string := collapseFrom false s.

Fixpoint trimStart (s : string) : string :=
  match s with
  | EmptyString => EmptyString
  | String c r => if isWhiteSpace c then trimStart r else s
  end.

Fixpoint trimEnd (s : string) : string :=
  match s with
  | EmptyString => EmptyString
  | String c r =>
      match trimEnd r with
      | EmptyString => if isWhiteSpace c then EmptyString else String c EmptyString
      | r' => String c r'
      end
  end.

(** [String.prototype.trim]. *)
Definition trim (s : string) : string := trimEnd (trimStart s).

(** ** Character classes *)

Inductive ClassAtom : Type :=
| ClassChar (c : ascii)            (* one character *)
| ClassRange (lo hi : ascii)       (* lo-hi *)
| ClassSpace.                      (* \s *)

Definition atomContains (a : ClassAtom) (c : ascii) : bool :=
  match a with
  | ClassChar x => Ascii.eqb x c
  | ClassRange lo hi => inRange (code lo) (code hi) c
  | ClassSpace => isWhiteSpace c
  end.

Definition classContains (cls : list ClassAtom) (c : ascii) : bool :=
  existsb (fun a => atomContains a c) cls.

(** [CharacterSetMatcher]: with the [i] flag a code unit is found in the
    class when some member of the class has the same canonical form. *)
Definition classMatches (ignoreCase invert : bool) (cls : list ClassAtom)
  (c : ascii) : bool :=
  let found :=
    if ignoreCase
    then existsb (fun a => classContains cls a && (canonicalize a =? canonicalize c)%N) allChars
    else classContains cls c in
  xorb invert found.

(** The class of [/[^a-z0-9\s]/i]. *)
Definition plainClass : list ClassAtom :=
  [ClassRange "a" "z"; ClassRange "0" "9"; ClassSpace].

(** [/[^a-z0-9\s]/i.test(k)], one code unit. *)
Definition isSymbol (c : ascii) : bool := classMatches true true plainClass c.

(** The class of [/[.*+?^${}()|[\]\\]/g]. *)
Definition specialClass : list ClassAtom :=
  map ClassChar (chars ".*+?^${}()|[]\").

Definition isSpecial (c : ascii) : bool := classMatches false false specialClass c.

(** [k.replace(/[.*+?^${}()|[\]\\]/g, "\\$&")]: a backslash goes in front
    of every special character. *)
Fixpoint escapeRegExp (k : string) : string :=
  match k with
  | EmptyString => EmptyString
  | String c r =>
      if isSpecial c then String "\" (String c (escapeRegExp r))
      else String c (escapeRegExp r)
  end.

(** ** Regular expressions

    The fragment of the pattern language that the scorer can build: a
    sequence of pattern characters, escaped syntax characters and the
    assertion [\b]. *)

Module RegExp.

Inductive Term : Type :=
| WordBoundary                   (* \b *)
| PatternChar (c : ascii).       (* a character that matches itself *)

Record t : Type := mk { pattern : list Term; ignoreCase : bool }.

(** SyntaxCharacter of the pattern grammar. *)
Definition isSyntaxCharacter (c : ascii) : bool :=
  existsChar (Ascii.eqb c) "^$\.*+?()[]{}|".

(** The pattern parser.  [None] stands for a [SyntaxError] of the
    constructor or for a pattern outside the fragment. *)
Fixpoint parse (src : string) : option (list Term) :=
  match src with
  | EmptyString => Some []
  | String c rest =>
      if Ascii.eqb c "\" then
        match rest with
        | EmptyString => None
        | String e rest' =>
            if Ascii.eqb e "b" then option_map (cons WordBoundary) (parse rest')
            else if isSyntaxCharacter e
                 then option_map (cons (PatternChar e)) (parse rest')
                 else None
        end
      else if isSyntaxCharacter c then None
      else option_map (cons (PatternChar c)) (parse rest)
  end.

Definition parseFlags (flags : string) : option bool :=
  if String.eqb flags "" then Some false
  else if String.eqb flags "i" then Some true
  else None.

(** [new RegExp(src, flags)]. *)
Definition create (src flags : string) : option t :=
  match parse src, parseFlags flags with
  | Some p, Some ic => Some (mk p ic)
  | _, _ => None
  end.

Definition charMatches (ic : bool) (a c : ascii) : bool :=
  if ic then (canonicalize a =? canonicalize c)%N else Ascii.eqb a c.

(** The matcher at one position: [prev] is the code unit in front of the
    position (if any) and [input] is what follows it. *)
Fixpoint matchHere (ic : bool) (p : list Term) (prev : option ascii)
  (input : string) : bool :=
  match p with
  | [] => true
  | WordBoundary :: p' =>
      xorb (isWordCharAt prev) (isWordCharAt (firstChar input))
      && matchHere ic p' prev input
  | PatternChar a :: p' =>
      match input with
      | EmptyString => false
      | String c rest => charMatches ic a c && matchHere ic p' (Some c) rest
      end
  end.

(** [RegExpBuiltinExec] without the [g] and [y] flags: the matcher is
    tried at index 0, 1, ... up to the length of the input. *)
Fixpoint searchFrom (ic : bool) (p : list Term) (prev : option ascii)
  (input : string) : bool :=
  if matchHere ic p prev input then true
  else match input with
       | EmptyString => false
       | String c rest => searchFrom ic p (Some c) rest
       end.

(** [RegExp.prototype.test]. *)
Definition test (r : t) (s : string) : bool :=
  searchFrom (ignoreCase r) (pattern r) None s.

End RegExp.

(** ** The keyword scorer ([supabase/functions/parse-cv/index.ts]) *)

(** Predefined job-related keywords for matching. *)
Definition JOB_KEYWORDS : list string :=
  [ (* Programming Languages *)
    "java"; "javascript"; "typescript"; "python"; "c++"; "c#"; "ruby"; "php";
    "swift"; "kotlin"; "go"; "rust"; "scala";
    (* Web Technologies *)
    "html"; "css"; "react"; "angular"; "vue"; "node.js"; "nodejs"; "express";
    "next.js"; "nextjs"; "tailwind";
    (* Databases *)
    "sql"; "mysql"; "postgresql"; "mongodb"; "redis"; "oracle"; "sqlite";
    "dynamodb"; "firebase";
    (* Cloud & DevOps *)
    "aws"; "azure"; "gcp"; "docker"; "kubernetes"; "jenkins"; "ci/cd";
    "terraform"; "ansible";
    (* Languages (especially Japanese-related) *)
    "japanese"; "jlpt"; "n1"; "n2"; "n3"; "n4"; "n5"; "english"; "mandarin";
    "korean";
    (* Soft Skills *)
    "communication"; "leadership"; "teamwork"; "problem-solving"; "analytical";
    "project management";
    (* Education *)
    "bachelor"; "master"; "phd"; "doctorate"; "degree"; "university"; "college";
    "certification";
    (* Experience Keywords *)
    "senior"; "junior"; "lead"; "manager"; "architect"; "developer"; "engineer";
    "analyst"; "consultant";
    (* Other Technical Skills *)
    "api"; "rest"; "graphql"; "microservices"; "agile"; "scrum"; "git"; "linux";
    "machine learning"; "ai"; "data science" ].

(** The template literal [`\\b${escaped}\\b`]. *)
Definition boundedPattern (escaped : string) : string :=
  "\b" ++ escaped ++ "\b".

(** [keywordExists]: [None] when the [RegExp] constructor throws. *)
Definition keywordExists (text keyword : string) : option bool :=
  let t := toLowerCase text in
  let k := toLowerCase keyword in
  (* if keyword contains symbols, just use includes() *)
  if existsChar isSymbol k then Some (includes t k)
  else
    (* normal keyword word-boundary match *)
    let escaped := escapeRegExp k in
    match RegExp.create (boundedPattern escaped) "i" with
    | Some re => Some (RegExp.test re t)
    | None => None
    end.

(** A JavaScript [Set] of strings is the list of its elements in insertion
    order; [add] leaves the set alone when the value is in it. *)
Definition Set_has (s : list string) (x : string) : bool :=
  existsb (String.eqb x) s.

Definition Set_add (s : list string) (x : string) : list string :=
  if Set_has s x then s else s ++ [x].

(** [new Set(iterable)], spread back into an array. *)
Definition Set_from (l : list string) : list string :=
  fold_left Set_add l [].

Record MatchResult : Type :=
  { score : Z; matchedKeywords : list string }.

(** The loop [for (const keyword of allKeywords)]; [matched] is the array
    that [push] extends. *)
Fixpoint scanKeywords (lowerText : string) (keywords matched : list string)
  : option (list string) :=
  match keywords with
  | [] => Some matched
  | keyword :: rest =>
      match keywordExists lowerText keyword with
      | Some true => scanKeywords lowerText rest (matched ++ [keyword])
      | Some false => scanKeywords lowerText rest matched
      | None => None
      end
  end.

Definition allKeywordsOf (customKeywords : list string) : list string :=
  Set_from (JOB_KEYWORDS ++ map toLowerCase customKeywords).

Definition calculateKeywordMatch (text : string) (customKeywords : list string)
  : option MatchResult :=
  let lowerText := toLowerCase text in
  let allKeywords := allKeywordsOf customKeywords in
  match scanKeywords lowerText allKeywords [] with
  | Some matched =>
      (* Calculate score based on matched keywords (max 100%) *)
      Some {| score := Z.min 100 (Z.of_nat (List.length matched) * 10);
              matchedKeywords := matched |}
  | None => None
  end.

(** ** The text extractors *)

Inductive JsError : Type :=
| InvalidPDFException
| PasswordException
| OtherError (message : string).

(** The result of awaiting a promise, or of a call that can throw. *)
Inductive Outcome (A : Type) : Type :=
| Resolved (a : A)
| Rejected (e : JsError).

Arguments Resolved {A} a.
Arguments Rejected {A} e.

Definition bind {A B : Type} (m : Outcome A) (f : A -> Outcome B) : Outcome B :=
  match m with
  | Resolved a => f a
  | Rejected e => Rejected e
  end.

Notation "x <- m ;; k" := (bind m (fun x => k))
  (at level 61, m at next level, right associativity).

(** The objects of pdf.js that the extractors use. *)
Record TextItem : Type := { str : string }.
Record TextContent : Type := { items : list TextItem }.
Record PDFPageProxy : Type := { getTextContent : Outcome TextContent }.
Record PDFDocumentProxy : Type :=
  { numPages : nat; getPage : nat -> Outcome PDFPageProxy }.

Definition LF : string := String "010"%char EmptyString.

Section Extractors.

(** [pdfjsLib.getDocument({ data }).promise]: pdf.js is outside the
    repository and stays a parameter. *)
Variable getDocument : list Byte.byte -> Outcome PDFDocumentProxy.

(** The loop over the pages, from [pageNum] on, [remaining] pages to go. *)
Fixpoint readPages (pdf : PDFDocumentProxy) (remaining pageNum : nat)
  (fullText : string) : Outcome string :=
  match remaining with
  | O => Resolved fullText
  | S n =>
      page <- getPage pdf pageNum ;;
      content <- getTextContent page ;;
      let strings := map str (items content) in
      readPages pdf n (S pageNum) (fullText ++ join " " strings ++ LF)
  end.

(** The browser extractor ([src/utils/extractPdfText.ts]). *)
Definition extractPdfTextFromBlob (blob : list Byte.byte) : Outcome string :=
  let buffer := blob in
  pdf <- getDocument buffer ;;
  text <- readPages pdf (numPages pdf) 1 "" ;;
  Resolved (trim (collapseWhiteSpace text)).

(** The serverless extractor: the same body inside [try], and a [catch]
    that logs the error and returns the empty string. *)
Definition extractTextFromPDF (pdfBuffer : list Byte.byte) : Outcome string :=
  let body :=
    pdf <- getDocument pdfBuffer ;;
    fullText <- readPages pdf (numPages pdf) 1 "" ;;
    Resolved (trim (collapseWhiteSpace fullText)) in
  match body with
  | Resolved s => Resolved s
  | Rejected _ => Resolved ""
  end.

End Extractors.

(** ** The request handler ([Deno.serve]) *)

Record RequestBody : Type :=
  { applicantId : option string;
    cvFilePath : option string;
    customKeywords : option (list string) }.

Record Request : Type :=
  { method : string; json : Outcome RequestBody }.

(** The row handed to [supabase.from("applicants").update]. *)
Record ApplicantUpdate : Type :=
  { cv_extracted_text : string;
    matched_keywords : list string;
    keyword_match_score : Z }.

Inductive ResponseBody : Type :=
| NoBody
| ErrorBody (error : string) (details : option string)
| SuccessBody (extractedTextLength : Z) (resultScore : Z)
    (resultKeywords : list string).

Record Response : Type := { status : Z; body : ResponseBody }.

(** What one request does: the response, and the update that was sent to
    the table, if one was. *)
Record Served : Type :=
  { response : Response; issued : option (string * ApplicantUpdate) }.

(** [!x] for an optional string: [undefined] and [""] are falsy. *)
Definition missing (x : option string) : bool :=
  match x with
  | None => true
  | Some s => String.eqb s ""
  end.

Definition errorMessage (e : JsError) : string :=
  match e with
  | InvalidPDFException => "Invalid PDF structure."
  | PasswordException => "No password given"
  | OtherError m => m
  end.

Section Handler.

Variable getDocument : list Byte.byte -> Outcome PDFDocumentProxy.

(** [supabase.storage.from("cvs").download]: the file, or the message of
    the download error. *)
Variable download : string -> string + list Byte.byte.

(** [supabase.from("applicants").update(row).eq("id", id)]: the message
    of the update error, if any. *)
Variable update : string -> ApplicantUpdate -> option string.

Definition respond (st : Z) (b : ResponseBody) : Served :=
  {| response := {| status := st; body := b |}; issued := None |}.

Definition internalError (e : JsError) : Served :=
  respond 500 (ErrorBody "Internal server error" (Some (errorMessage e))).

Definition handler (req : Request) : Served :=
  if String.eqb (method req) "OPTIONS" then respond 200 NoBody
  else
    match json req with
    | Rejected e => internalError e
    | Resolved b =>
        if missing (applicantId b) || missing (cvFilePath b)
        then respond 400 (ErrorBody "Missing applicantId or cvFilePath" None)
        else
          let id := match applicantId b with Some s => s | None => "" end in
          let path := match cvFilePath b with Some s => s | None => "" end in
          (* Download the CV from storage *)
          match download path with
          | inl message =>
              respond 500 (ErrorBody "Failed to download CV" (Some message))
          | inr pdfBuffer =>
              (* Extract text from PDF *)
              match extractTextFromPDF getDocument pdfBuffer with
              | Rejected e => internalError e
              | Resolved extractedText =>
                  (* Calculate keyword match *)
                  let custom :=
                    match customKeywords b with Some l => l | None => [] end in
                  match calculateKeywordMatch extractedText custom with
                  | None => internalError (OtherError "Invalid regular expression")
                  | Some r =>
                      (* Update the applicant record *)
                      let row :=
                        {| cv_extracted_text := substring extractedText 0 50000;
                           matched_keywords := matchedKeywords r;
                           keyword_match_score := score r |} in
                      match update id row with
                      | Some message =>
                          {| response :=
                               {| status := 500;
                                  body := ErrorBody "Failed to update applicant"
                                            (Some message) |};
                             issued := Some (id, row) |}
                      | None =>
                          {| response :=
                               {| status := 200;
                                  body := SuccessBody (strlen extractedText)
                                            (score r) (matchedKeywords r) |};
                             issued := Some (id, row) |}
                      end
                  end
              end
          end
    end.

End Handler.

(** ** The callers ([src/pages/AdminDashboard.tsx], [src/pages/Index.tsx]) *)

(** The class of [/[,\s]+/]. *)
Definition separatorClass : list ClassAtom := [ClassChar ","; ClassSpace].

Definition isSeparator (c : ascii) : bool :=
  classMatches false false separatorClass c.

(** [s.split(/[,\s]+/)]: the pieces of [s] between the maximal runs of
    separators.  The head of the result is the piece that is being read;
    a run of separators closes it, and a run at the start or at the end of
    [s] leaves an empty piece there, as [split] does.  [inRun] says that
    the previous code unit was a separator. *)
Fixpoint splitFrom (inRun : bool) (s : string) : list string :=
  match s with
  | EmptyString => [EmptyString]
  | String c r =>
      if isSeparator c
      then (if inRun then splitFrom true r else EmptyString :: splitFrom true r)
      else match splitFrom false r with
           | piece :: pieces => String c piece :: pieces
           | [] => [String c EmptyString]
           end
  end.

Definition splitSeparators (s : string) : list string := splitFrom false s.

(** The custom keywords of [analyzeCV] and [analyzeAllCVs], from the text
    of the input field:
    [keywords.toLowerCase().split(/[,\s]+/).map(k => k.trim())
     .filter(k => k.length > 0)]. *)
Definition customKeywordsOf (keywords : string) : list string :=
  filter (fun k => Nat.ltb 0 (String.length k))
    (map trim (splitSeparators (toLowerCase keywords))).

(** The request that [analyzeCV] sends with
    [supabase.functions.invoke("parse-cv", ...)]: the body holds
    [applicantId], [extractedText] and [customKeywords].  It has no
    [cvFilePath], and the handler does not read [extractedText]. *)
Definition analyzeRequest (id keywords : string) : Request :=
  {| method := "POST";
     json := Resolved {| applicantId := Some id;
                         cvFilePath := None;
                         customKeywords := Some (customKeywordsOf keywords) |} |}.

(** The request that the application form sends after the insert
    ([Index.tsx]): [applicantId] and [cvFilePath], no custom keyword. *)
Definition submissionRequest (id fileName : string) : Request :=
  {| method := "POST";
     json := Resolved {| applicantId := Some id;
                         cvFilePath := Some fileName;
                         customKeywords := None |} |}.

(* ================================================================== *)
(** * Part II: the properties, as the specification words them *)
(* ================================================================== *)

(** A term of [[a-z0-9 ]]. *)
Definition isTermChar (c : ascii) : bool :=
  isLowerAZ c || isDigit c || (code c =? 32)%N.

Fixpoint allChar (p : ascii -> bool) (s : string) : bool :=
  match s with
  | EmptyString => true
  | String c r => p c && allChar p r
  end.

(** There is a word boundary between [pre] and [post] when exactly one of
    the two code units next to the cut is a word character. *)
Definition wordBoundaryBetween (pre post : string) : Prop :=
  isWordCharAt (lastChar pre) <> isWordCharAt (firstChar post).

(** The term occurs in the text as a whole token: the text splits into
    [pre ++ k ++ post] with a word boundary on each side of [k]. *)
Definition occursAsWholeToken (k t : string) : Prop :=
  exists pre post,
    t = pre ++ k ++ post
    /\ wordBoundaryBetween pre (k ++ post)
    /\ wordBoundaryBetween (pre ++ k) post.

(** The term stands between two code units that are not word characters
    (or the ends of the text): it is not a part of a larger token. *)
Definition occursUnattached (k t : string) : Prop :=
  exists pre post,
    t = pre ++ k ++ post
    /\ isWordCharAt (lastChar pre) = false
    /\ isWordCharAt (firstChar post) = false.

(** A character of [[a-z0-9]] or a white space character. *)
Definition isPlainChar (c : ascii) : bool :=
  isLowerAZ c || isDigit c || isWhiteSpace c.

(** The term is a contiguous substring of the text. *)
Definition isSubstringOf (k t : string) : Prop :=
  exists pre post, t = pre ++ k ++ post.

(** [l1] is a subsequence of [l2]: the elements of [l1], in their order,
    among those of [l2]. *)
Inductive Subseq {A : Type} : list A -> list A -> Prop :=
| Subseq_nil : Subseq [] []
| Subseq_skip x l1 l2 : Subseq l1 l2 -> Subseq l1 (x :: l2)
| Subseq_keep x l1 l2 : Subseq l1 l2 -> Subseq (x :: l1) (x :: l2).

(** The terms of the pattern [\bk\b] for a keyword [k] of plain
    characters. *)
Definition boundedTerms (k : string) : list RegExp.Term :=
  RegExp.WordBoundary
    :: (map RegExp.PatternChar (chars k) ++ [RegExp.WordBoundary])%list.

(** The test of the loop, as a total function. *)
Definition keywordFound (lowerText keyword : string) : bool :=
  match keywordExists lowerText keyword with
  | Some b => b
  | None => false
  end.



(** The answer of the scorer when nothing matches. *)
Definition noMatch : MatchResult := {| score := 0; matchedKeywords := [] |}.

(** The text of the extractors after [replace(/\s+/g, " ").trim()]. *)
Definition normalize (s : string) : string := trim (collapseWhiteSpace s).

(** The text that one page adds: its items joined by a space, and a line
    feed. *)
Definition pageText (l : list TextItem) : string :=
  join " " (map str l) ++ LF.

Fixpoint concatStrings (l : list string) : string :=
  match l with
  | [] => EmptyString
  | x :: r => x ++ concatStrings r
  end.

(** White space in [s] is single spaces only; [prevWs] says that the code
    unit in front of [s] was white space (or that [s] is at the start). *)
Fixpoint spaced (prevWs : bool) (s : string) : bool :=
  match s with
  | EmptyString => true
  | String c r =>
      if isWhiteSpace c
      then Ascii.eqb c " " && negb prevWs && spaced true r
      else spaced false r
  end.

Definition isWhiteSpaceAt (o : option ascii) : bool :=
  match o with
  | Some c => isWhiteSpace c
  | None => false
  end.

(** A normalized text: its white space is single spaces, none of them at
    the start or at the end. *)
Definition isNormalized (s : string) : Prop :=
  (forall c, In c (chars s) -> isWhiteSpace c = true -> c = " "%char)
  /\ ~ isSubstringOf "  " s
  /\ isWhiteSpaceAt (firstChar s) = false
  /\ isWhiteSpaceAt (lastChar s) = false.

(** The text items of page [p], as the body of the loop reads them. *)
Definition pageItems (pdf : PDFDocumentProxy) (p : nat) : Outcome (list TextItem) :=
  page <- getPage pdf p ;;
  content <- getTextContent page ;;
  Resolved (items content).

(** What [map(k => k.trim()).filter(k => k.length > 0)] keeps of the
    pieces of a split. *)
Definition keptPieces (pieces : list string) : list string :=
  filter (fun k => Nat.ltb 0 (String.length k)) (map trim pieces).

(** ** Sample data *)

Definition scenarioText : string :=
  "Senior Python developer with AWS and Docker experience, JLPT N2 certified".

Definition TAB : string := String "009"%char EmptyString.

(** The seven keywords of the vocabulary that [scenarioText] holds, in the
    order of the vocabulary. *)
Definition scenarioKeywords : list string :=
  ["python"; "aws"; "docker"; "jlpt"; "n2"; "senior"; "developer"].


(** A term with a tab in it, and a text that holds it inside a longer
    run of letters. *)
Definition tabTerm : string := "a" ++ TAB ++ "b".
Definition tabText : string := "xa" ++ TAB ++ "by".

(** A pdf.js that rejects the buffer of zero bytes (as pdf.js does, with an
    [InvalidPDFException]) and reads every other buffer as one page that
    holds the bytes as its only text item. *)
Definition samplePdfjs (data : list Byte.byte) : Outcome PDFDocumentProxy :=
  match data with
  | [] => Rejected InvalidPDFException
  | _ =>
      Resolved
        {| numPages := 1;
           getPage := fun _ =>
             Resolved
               {| getTextContent :=
                    Resolved {| items := [ {| str := string_of_list_byte data |} ] |} |} |}
  end.

(** A scanned document: two pages without a text item. *)
Definition scannedPdfjs (data : list Byte.byte) : Outcome PDFDocumentProxy :=
  Resolved
    {| numPages := 2;
       getPage := fun _ => Resolved {| getTextContent := Resolved {| items := [] |} |} |}.

(** A document of two pages; every other page number is refused. *)
Definition twoPageItems (p : nat) : list TextItem :=
  if Nat.eqb p 1 then [ {| str := "Curriculum" |}; {| str := " Vitae " |} ]
  else [ {| str := "Rust" |} ].

Definition twoPagePdfjs (data : list Byte.byte) : Outcome PDFDocumentProxy :=
  Resolved
    {| numPages := 2;
       getPage := fun p =>
         if Nat.eqb p 1 || Nat.eqb p 2
         then Resolved {| getTextContent := Resolved {| items := twoPageItems p |} |}
         else Rejected (OtherError "Invalid page request.") |}.

(** A document of three pages whose second page cannot be read. *)
Definition brokenPagePdfjs (data : list Byte.byte) : Outcome PDFDocumentProxy :=
  Resolved
    {| numPages := 3;
       getPage := fun p =>
         if Nat.eqb p 2 then Rejected (OtherError "Bad page")
         else Resolved {| getTextContent := Resolved {| items := twoPageItems p |} |} |}.

(** A bucket with one file, and a table that takes every update. *)
Definition sampleDownload (path : string) : string + list Byte.byte :=
  if String.eqb path "cv.pdf"
  then inr (list_byte_of_string "Senior  Python developer ")
  else inl "Object not found".

Definition sampleUpdate (id : string) (row : ApplicantUpdate) : option string :=
  None.

Definition sampleRequest : Request :=
  {| method := "POST";
     json := Resolved {| applicantId := Some "42";
                         cvFilePath := Some "cv.pdf";
                         customKeywords := None |} |}.

Definition sampleRow : ApplicantUpdate :=
  {| cv_extracted_text := "Senior Python developer";
     matched_keywords := ["python"; "senior"; "developer"];
     keyword_match_score := 30 |}.

(* ================================================================== *)
(** * Part III: proofs *)
(* ================================================================== *)

(** ** Code units, by the table of all 256 *)

Lemma allChars_complete (c : ascii) : In c allChars.
Proof.
  unfold allChars.
  rewrite <- (ascii_nat_embedding c).
  apply in_map, in_seq.
  pose proof (nat_ascii_bounded c); lia.
Qed.

Lemma forall_char (P : ascii -> bool) :
  forallb P allChars = true -> forall c, P c = true.
Proof.
  intros H c.
  rewrite forallb_forall in H.
  apply H, allChars_complete.
Qed.

Lemma forall_char2 (P : ascii -> ascii -> bool) :
  forallb (fun a => forallb (P a) allChars) allChars = true ->
  forall a c, P a c = true.
Proof.
  intros H a c.
  apply (forall_char (P a)).
  apply (forall_char (fun a => forallb (P a) allChars) H).
Qed.

(** Closes a goal [P c = true] by running [P] on every code unit. *)
Ltac char_table c :=
  pattern c;
  match goal with
  | |- (fun x => @?P x = true) c =>
      refine (forall_char P _ c); vm_compute; reflexivity
  end.

Lemma isSymbol_spec (c : ascii) :
  isSymbol c = negb (isLowerAZ c || isUpperAZ c || isDigit c || isWhiteSpace c).
Proof.
  apply eqb_prop.
  char_table c.
Qed.

Lemma isSpecial_symbol (c : ascii) : isSpecial c = true -> isSymbol c = true.
Proof.
  intros H. rewrite isSymbol_spec.
  assert (T : implb (isSpecial c)
                (negb (isLowerAZ c || isUpperAZ c || isDigit c || isWhiteSpace c)) = true)
    by char_table c.
  rewrite H in T. exact T.
Qed.

Lemma isSyntaxCharacter_symbol (c : ascii) :
  RegExp.isSyntaxCharacter c = true -> isSymbol c = true.
Proof.
  intros H. rewrite isSymbol_spec.
  assert (T : implb (RegExp.isSyntaxCharacter c)
                (negb (isLowerAZ c || isUpperAZ c || isDigit c || isWhiteSpace c)) = true)
    by char_table c.
  rewrite H in T. exact T.
Qed.

Lemma lowerChar_idem (c : ascii) : lowerChar (lowerChar c) = lowerChar c.
Proof.
  apply Ascii.eqb_eq.
  char_table c.
Qed.


Lemma isTermChar_plain (c : ascii) :
  isTermChar c = true -> isSymbol c = false /\ lowerChar c = c.
Proof.
  intros H. rewrite isSymbol_spec.
  assert (T : implb (isTermChar c)
                ((isLowerAZ c || isUpperAZ c || isDigit c || isWhiteSpace c)
                 && Ascii.eqb (lowerChar c) c) = true)
    by char_table c.
  rewrite H in T. cbn in T.
  apply andb_true_iff in T. destruct T as [T1 T2].
  split.
  - now rewrite T1.
  - now apply Ascii.eqb_eq.
Qed.

(** Case folding tells two lower-cased code units apart. *)
Lemma canonicalize_lower_inj (a c : ascii) :
  canonicalize (lowerChar a) = canonicalize (lowerChar c) ->
  lowerChar a = lowerChar c.
Proof.
  intros H.
  assert (T : implb (canonicalize (lowerChar a) =? canonicalize (lowerChar c))%N
                (Ascii.eqb (lowerChar a) (lowerChar c)) = true).
  { refine (forall_char2
              (fun a c => implb (canonicalize (lowerChar a) =? canonicalize (lowerChar c))%N
                            (Ascii.eqb (lowerChar a) (lowerChar c))) _ a c).
    vm_compute; reflexivity. }
  apply N.eqb_eq in H. rewrite H in T.
  now apply Ascii.eqb_eq.
Qed.

(** ** Strings *)

Lemma str_app_assoc (a b c : string) : (a ++ b) ++ c = a ++ (b ++ c).
Proof. induction a as [|x a IH]; simpl; [reflexivity | now rewrite IH]. Qed.

Lemma str_app_nil_r (a : string) : a ++ "" = a.
Proof. induction a as [|x a IH]; simpl; [reflexivity | now rewrite IH]. Qed.


Lemma toLowerCase_app (a b : string) :
  toLowerCase (a ++ b) = toLowerCase a ++ toLowerCase b.
Proof. induction a as [|x a IH]; simpl; [reflexivity | now rewrite IH]. Qed.

Lemma toLowerCase_idem (s : string) : toLowerCase (toLowerCase s) = toLowerCase s.
Proof.
  induction s as [|c s IH]; simpl; [reflexivity|].
  now rewrite lowerChar_idem, IH.
Qed.

Lemma lastCharFrom_app (prev : option ascii) (a b : string) :
  lastCharFrom prev (a ++ b) = lastCharFrom (lastCharFrom prev a) b.
Proof. revert prev; induction a as [|x a IH]; intros prev; simpl; [reflexivity | apply IH]. Qed.



Lemma allChar_term_plain (k : string) :
  allChar isTermChar k = true ->
  existsChar isSymbol k = false /\ toLowerCase k = k.
Proof.
  induction k as [|c k IH]; simpl; intros H; [now split|].
  apply andb_true_iff in H. destruct H as [Hc Hk].
  destruct (isTermChar_plain c Hc) as [Hs Hl].
  destruct (IH Hk) as [Hs' Hl'].
  now rewrite Hs, Hs', Hl, Hl'.
Qed.

Lemma startsWith_spec (t k : string) :
  startsWith t k = true <-> exists post, t = k ++ post.
Proof.
  revert t. induction k as [|a k IH]; intros t.
  - split; [intros _; now exists t | intros _; now destruct t].
  - destruct t as [|b t]; simpl.
    + split; [discriminate | intros [post H]; discriminate].
    + rewrite andb_true_iff, Ascii.eqb_eq, IH. split.
      * intros [-> [post ->]]. now exists post.
      * intros [post H]. injection H as -> ->. split; [reflexivity | now exists post].
Qed.

Lemma includes_eq (t k : string) :
  includes t k
  = if startsWith t k then true
    else match t with
         | EmptyString => false
         | String _ t' => includes t' k
         end.
Proof. now destruct t. Qed.

(** [includes] is containment as a contiguous substring. *)
Lemma includes_spec (t k : string) :
  includes t k = true <-> isSubstringOf k t.
Proof.
  unfold isSubstringOf.
  induction t as [|c t IH]; rewrite includes_eq.
  - destruct (startsWith "" k) eqn:E.
    + apply startsWith_spec in E. destruct E as [post E].
      split; [intros _; now exists "", post | reflexivity].
    + split; [discriminate|].
      intros [pre [post H]].
      destruct pre; [|discriminate]. simpl in H.
      assert (startsWith "" k = true) by (apply startsWith_spec; now exists post).
      congruence.
  - destruct (startsWith (String c t) k) eqn:E.
    + apply startsWith_spec in E. destruct E as [post E].
      split; [intros _; now exists "", post | reflexivity].
    + rewrite IH. split.
      * intros [pre [post ->]]. now exists (String c pre), post.
      * intros [pre [post H]].
        destruct pre as [|x pre]; simpl in H.
        -- assert (startsWith (String c t) k = true)
             by (apply startsWith_spec; now exists post).
           congruence.
        -- injection H as _ ->. now exists pre, post.
Qed.

(** ** The regular expression of the word-boundary branch *)

Lemma backslash_symbol (c : ascii) :
  isSymbol c = false -> Ascii.eqb c "\" = false.
Proof.
  intros H. destruct (Ascii.eqb c "\") eqn:E; [|reflexivity].
  apply Ascii.eqb_eq in E. subst c.
  rewrite (isSyntaxCharacter_symbol "\" eq_refl) in H. discriminate.
Qed.

Lemma syntax_symbol (c : ascii) :
  isSymbol c = false -> RegExp.isSyntaxCharacter c = false.
Proof.
  intros H. destruct (RegExp.isSyntaxCharacter c) eqn:E; [|reflexivity].
  rewrite (isSyntaxCharacter_symbol c E) in H. discriminate.
Qed.

(** A keyword without a symbol has nothing to escape ... *)
Lemma escapeRegExp_plain (k : string) :
  existsChar isSymbol k = false -> escapeRegExp k = k.
Proof.
  induction k as [|c k IH]; simpl; intros H; [reflexivity|].
  apply orb_false_iff in H. destruct H as [Hc Hk].
  destruct (isSpecial c) eqn:E.
  - rewrite (isSpecial_symbol c E) in Hc. discriminate.
  - now rewrite IH.
Qed.

(** ... and is read by the pattern parser as itself, character by
    character. *)
Lemma parse_plain (k rest : string) :
  existsChar isSymbol k = false ->
  RegExp.parse (k ++ rest)
  = option_map (app (map RegExp.PatternChar (chars k))) (RegExp.parse rest).
Proof.
  induction k as [|c k IH]; intros H.
  - simpl. now destruct (RegExp.parse rest).
  - simpl in H. apply orb_false_iff in H. destruct H as [Hc Hk].
    cbn [append RegExp.parse chars map].
    rewrite (backslash_symbol c Hc), (syntax_symbol c Hc), (IH Hk).
    now destruct (RegExp.parse rest).
Qed.

Lemma parse_bounded (k : string) :
  existsChar isSymbol k = false ->
  RegExp.parse (boundedPattern k) = Some (boundedTerms k).
Proof.
  intros H. unfold boundedPattern, boundedTerms.
  change ("\b" ++ k ++ "\b") with (String "\" (String "b" (k ++ "\b"))).
  cbn [RegExp.parse]. cbn [Ascii.eqb Bool.eqb].
  now rewrite (parse_plain k "\b" H).
Qed.

(** The two branches of [keywordExists]. *)
Lemma keywordExists_symbol (text keyword : string) :
  existsChar isSymbol (toLowerCase keyword) = true ->
  keywordExists text keyword
  = Some (includes (toLowerCase text) (toLowerCase keyword)).
Proof. intros H. unfold keywordExists. now rewrite H. Qed.

Lemma keywordExists_word (text keyword : string) :
  existsChar isSymbol (toLowerCase keyword) = false ->
  keywordExists text keyword
  = Some (RegExp.searchFrom true (boundedTerms (toLowerCase keyword)) None
            (toLowerCase text)).
Proof.
  intros H. unfold keywordExists, RegExp.create. rewrite H.
  rewrite (escapeRegExp_plain _ H), (parse_bounded _ H).
  reflexivity.
Qed.

(** The [RegExp] constructor never throws inside [keywordExists]. *)
Lemma keywordExists_total (text keyword : string) :
  exists b, keywordExists text keyword = Some b.
Proof.
  destruct (existsChar isSymbol (toLowerCase keyword)) eqn:E.
  - rewrite (keywordExists_symbol _ _ E). eauto.
  - rewrite (keywordExists_word _ _ E). eauto.
Qed.

(** ** The matcher *)

Lemma searchFrom_eq (ic : bool) (p : list RegExp.Term) (prev : option ascii)
  (input : string) :
  RegExp.searchFrom ic p prev input
  = if RegExp.matchHere ic p prev input then true
    else match input with
         | EmptyString => false
         | String c rest => RegExp.searchFrom ic p (Some c) rest
         end.
Proof. now destruct input. Qed.

(** The search succeeds when the matcher succeeds at some cut of the
    input. *)
Lemma searchFrom_spec (ic : bool) (p : list RegExp.Term) (input : string) :
  forall prev,
    RegExp.searchFrom ic p prev input = true
    <-> exists pre post,
        input = pre ++ post
        /\ RegExp.matchHere ic p (lastCharFrom prev pre) post = true.
Proof.
  induction input as [|c input IH]; intros prev; rewrite searchFrom_eq.
  - destruct (RegExp.matchHere ic p prev "") eqn:E.
    + split; [intros _; now exists "", "" | reflexivity].
    + split; [discriminate|].
      intros [pre [post [H M]]].
      destruct pre; [|discriminate]. simpl in H. subst post.
      simpl in M. congruence.
  - destruct (RegExp.matchHere ic p prev (String c input)) eqn:E.
    + split; [intros _; now exists "", (String c input) | reflexivity].
    + rewrite IH. split.
      * intros [pre [post [-> M]]]. now exists (String c pre), post.
      * intros [pre [post [H M]]].
        destruct pre as [|x pre]; simpl in H.
        -- subst post. simpl in M. congruence.
        -- injection H as -> ->. now exists pre, post.
Qed.

(** On a lower-cased input the literal part of the pattern, itself in
    lower case, matches only its own characters although the [i] flag is
    set. *)
Lemma matchHere_literal (k : string) (q : list RegExp.Term) :
  toLowerCase k = k ->
  forall prev input,
    toLowerCase input = input ->
    RegExp.matchHere true (map RegExp.PatternChar (chars k) ++ q)%list prev input = true
    <-> exists post,
        input = k ++ post
        /\ RegExp.matchHere true q (lastCharFrom prev k) post = true.
Proof.
  induction k as [|a k IH]; intros Hk prev input Hin.
  - simpl. split.
    + intros M. now exists input.
    + intros [post [-> M]]. exact M.
  - simpl in Hk. injection Hk as Ha Hk.
    cbn [chars map app RegExp.matchHere].
    destruct input as [|c input].
    + split; [discriminate | intros [post [H _]]; discriminate].
    + simpl in Hin. injection Hin as Hc Hin.
      rewrite andb_true_iff, (IH Hk (Some c) input Hin).
      unfold RegExp.charMatches. rewrite N.eqb_eq.
      split.
      * intros [E [post [-> M]]].
        rewrite <- Ha, <- Hc in E. apply canonicalize_lower_inj in E.
        rewrite Ha, Hc in E. subst c.
        now exists post.
      * intros [post [H M]]. simpl in H. injection H as -> ->.
        split; [reflexivity | now exists post].
Qed.

Lemma xorb_true_neq (a b : bool) : xorb a b = true <-> a <> b.
Proof. destruct a, b; simpl; split; congruence. Qed.

(** The search for [\bk\b], for a lower-case [k] without a symbol in a
    lower-cased text, finds the whole tokens. *)
Lemma searchFrom_bounded (k t : string) :
  toLowerCase k = k ->
  toLowerCase t = t ->
  RegExp.searchFrom true (boundedTerms k) None t = true
  <-> occursAsWholeToken k t.
Proof.
  intros Hk Ht. unfold occursAsWholeToken, wordBoundaryBetween, boundedTerms.
  rewrite searchFrom_spec. split.
  - intros [pre [post [-> M]]].
    cbn [RegExp.matchHere] in M. apply andb_true_iff in M. destruct M as [B1 M].
    rewrite toLowerCase_app in Ht.
    assert (Hpost : toLowerCase post = post).
    { clear - Ht. revert Ht. induction pre as [|x pre IH]; simpl; intros H.
      - exact H.
      - injection H as _ H. now apply IH. }
    apply (matchHere_literal k [RegExp.WordBoundary] Hk _ post Hpost) in M.
    destruct M as [post' [-> M]].
    cbn [RegExp.matchHere] in M. rewrite andb_true_r in M.
    exists pre, post'. split; [reflexivity|]. split.
    + now apply xorb_true_neq.
    + unfold lastChar. rewrite lastCharFrom_app. now apply xorb_true_neq.
  - intros [pre [post [-> [B1 B2]]]].
    exists pre, (k ++ post). split; [reflexivity|].
    cbn [RegExp.matchHere]. apply andb_true_iff. split.
    + now apply xorb_true_neq.
    + rewrite toLowerCase_app, toLowerCase_app in Ht.
      assert (Hkp : toLowerCase (k ++ post) = k ++ post).
      { rewrite toLowerCase_app.
        clear - Ht. revert Ht. induction pre as [|x pre IH]; simpl; intros H.
        - exact H.
        - injection H as _ H. now apply IH. }
      apply (matchHere_literal k [RegExp.WordBoundary] Hk _ (k ++ post) Hkp).
      exists post. split; [reflexivity|].
      cbn [RegExp.matchHere]. rewrite andb_true_r.
      apply xorb_true_neq.
      unfold lastChar in B2. now rewrite lastCharFrom_app in B2.
Qed.

Lemma firstChar_app (k post : string) :
  k <> "" -> firstChar (k ++ post) = firstChar k.
Proof. destruct k; [congruence | reflexivity]. Qed.

Lemma lastCharFrom_nonempty (prev : option ascii) (k : string) :
  k <> "" -> lastCharFrom prev k = lastChar k.
Proof. destruct k; [congruence | reflexivity]. Qed.

(** For a term that begins and ends with a word character, a whole token
    is an occurrence with no word character next to it. *)
Lemma wholeToken_unattached (k t : string) :
  isWordCharAt (firstChar k) = true ->
  isWordCharAt (lastChar k) = true ->
  occursAsWholeToken k t <-> occursUnattached k t.
Proof.
  intros Hf Hl.
  assert (Hk : k <> "") by (intros ->; discriminate).
  unfold occursAsWholeToken, occursUnattached, wordBoundaryBetween.
  split; intros [pre [post [E [B1 B2]]]]; exists pre, post;
    (split; [exact E|]);
    unfold lastChar in *;
    rewrite lastCharFrom_app, (lastCharFrom_nonempty _ k Hk) in *;
    rewrite (firstChar_app k post Hk) in *;
    unfold lastChar in *; rewrite Hf, Hl in *.
  - split.
    + destruct (isWordCharAt (lastCharFrom None pre)); congruence.
    + destruct (isWordCharAt (firstChar post)); congruence.
  - rewrite B1, B2. split; congruence.
Qed.

(** ** The matching rule *)

(** C3.  For every term whose characters are all in [[a-z0-9 ]],
    [keywordExists] returns (the constructor of the regular expression does
    not throw) and succeeds exactly when the term occurs in the lower-cased
    text as a whole token, with a word boundary on each side; a term that
    begins and ends with a letter or digit is then found only where no word
    character stands next to it, never inside a larger token.  The term
    "go" does not match "I am going home" and matches "I use Go daily". *)
Theorem keywordExists_whole_token (text k : string) :
  allChar isTermChar k = true ->
  (exists b, keywordExists text k = Some b)
  /\ (keywordExists text k = Some true
      <-> occursAsWholeToken k (toLowerCase text))
  /\ (isWordCharAt (firstChar k) = true ->
      isWordCharAt (lastChar k) = true ->
      (keywordExists text k = Some true
       <-> occursUnattached k (toLowerCase text)))
  /\ keywordExists "I am going home" "go" = Some false
  /\ keywordExists "I use Go daily" "go" = Some true.
Proof.
  intros Hk.
  destruct (allChar_term_plain k Hk) as [Hs Hl].
  assert (W : keywordExists text k = Some true
              <-> occursAsWholeToken k (toLowerCase text)).
  { rewrite keywordExists_word by now rewrite Hl.
    rewrite Hl.
    rewrite <- (searchFrom_bounded k (toLowerCase text) Hl (toLowerCase_idem text)).
    split; [now intros [= ->] | now intros ->]. }
  split; [apply keywordExists_total|].
  split; [exact W|].
  split.
  - intros Hf Hla. rewrite W. now apply wholeToken_unattached.
  - split; vm_compute; reflexivity.
Qed.

Lemma keywordExists_whole_token_witness :
  allChar isTermChar "go" = true
  /\ occursAsWholeToken "go" (toLowerCase "I use Go daily").
Proof.
  split; [reflexivity|].
  apply (keywordExists_whole_token "I use Go daily" "go" eq_refl).
  vm_compute; reflexivity.
Defined.

Lemma isUpperAZ_lowerChar (c : ascii) : isUpperAZ (lowerChar c) = false.
Proof.
  apply negb_true_iff.
  char_table c.
Qed.

Lemma isSymbol_lower (k : string) :
  existsChar isSymbol (toLowerCase k)
  = existsChar (fun c => negb (isPlainChar c)) (toLowerCase k).
Proof.
  induction k as [|c k IH]; simpl; [reflexivity|].
  rewrite IH, isSymbol_spec. unfold isPlainChar.
  rewrite isUpperAZ_lowerChar, orb_false_r.
  reflexivity.
Qed.

(** The substring branch, for every keyword: a keyword that, in lower
    case, has a character outside [[a-z0-9]] and outside white space is
    searched with [includes]. *)
Lemma keywordExists_symbol_iff (text k : string) :
  existsChar (fun c => negb (isPlainChar c)) (toLowerCase k) = true ->
  keywordExists text k = Some true
  <-> isSubstringOf (toLowerCase k) (toLowerCase text).
Proof.
  intros H. rewrite <- isSymbol_lower in H.
  rewrite (keywordExists_symbol text k H), <- includes_spec.
  split; [now intros [= ->] | now intros ->].
Qed.

(** ** The set of keywords *)

Lemma Set_has_In (s : list string) (x : string) :
  Set_has s x = true <-> In x s.
Proof.
  unfold Set_has. rewrite existsb_exists. split.
  - intros [y [Hy E]]. apply String.eqb_eq in E. now subst y.
  - intros H. exists x. split; [exact H | apply String.eqb_refl].
Qed.

Lemma Set_add_known (s : list string) (x : string) :
  In x s -> Set_add s x = s.
Proof.
  intros H. unfold Set_add.
  apply Set_has_In in H. now rewrite H.
Qed.

Lemma Set_add_In (s : list string) (x y : string) :
  In y (Set_add s x) <-> In y s \/ y = x.
Proof.
  unfold Set_add. destruct (Set_has s x) eqn:E.
  - apply Set_has_In in E. split; [now left | intros [H | ->]; assumption].
  - rewrite in_app_iff. simpl. split.
    + intros [H | [H | []]]; [now left | now right].
    + intros [H | ->]; [now left | right; now left].
Qed.

Lemma Set_add_NoDup (s : list string) (x : string) :
  NoDup s -> NoDup (Set_add s x).
Proof.
  intros H. unfold Set_add. destruct (Set_has s x) eqn:E; [exact H|].
  assert (N : ~ In x s).
  { intros I. apply Set_has_In in I. congruence. }
  clear E. induction H as [|y s Hy Hs IH]; simpl.
  - constructor; [intros [] | constructor].
  - constructor.
    + rewrite in_app_iff. simpl. intros [I | [I | []]].
      * now apply Hy.
      * apply N. now left.
    + apply IH. intros I. apply N. now right.
Qed.

Lemma fold_Set_add_In (l s : list string) (y : string) :
  In y (fold_left Set_add l s) <-> In y s \/ In y l.
Proof.
  revert s. induction l as [|x l IH]; intros s; simpl.
  - tauto.
  - rewrite IH, Set_add_In. split.
    + intros [[H | H] | H]; auto.
    + intros [H | [H | H]]; auto.
Qed.

Lemma fold_Set_add_NoDup (l s : list string) :
  NoDup s -> NoDup (fold_left Set_add l s).
Proof.
  revert s. induction l as [|x l IH]; intros s H; simpl; [exact H|].
  apply IH, Set_add_NoDup, H.
Qed.

(** The spread of a [Set] has no value twice, and holds the values of the
    iterable. *)
Lemma Set_from_NoDup (l : list string) : NoDup (Set_from l).
Proof. apply fold_Set_add_NoDup. constructor. Qed.

Lemma Set_from_In (l : list string) (y : string) :
  In y (Set_from l) <-> In y l.
Proof. unfold Set_from. rewrite fold_Set_add_In. simpl. tauto. Qed.

(** Adding a value that the set holds changes nothing, now or later. *)
Lemma fold_Set_add_skip (l1 l2 s : list string) (x : string) :
  In x s ->
  fold_left Set_add (l1 ++ x :: l2)%list s = fold_left Set_add (l1 ++ l2)%list s.
Proof.
  revert s. induction l1 as [|y l1 IH]; intros s H; simpl.
  - now rewrite (Set_add_known s x H).
  - apply IH. apply Set_add_In. now left.
Qed.

Lemma Set_from_skip (base pre post : list string) (x : string) :
  In x base ->
  Set_from (base ++ pre ++ x :: post)%list = Set_from (base ++ pre ++ post)%list.
Proof.
  intros H. unfold Set_from.
  rewrite !fold_left_app. simpl fold_left at 1.
  f_equal. apply Set_add_known.
  apply (proj2 (fold_Set_add_In pre _ x)). left.
  apply (proj2 (fold_Set_add_In base [] x)). now right.
Qed.

Lemma allKeywordsOf_skip (pre post : list string) (c : string) :
  In (toLowerCase c) JOB_KEYWORDS ->
  allKeywordsOf (pre ++ c :: post)%list = allKeywordsOf (pre ++ post)%list.
Proof.
  intros H. unfold allKeywordsOf.
  rewrite !map_app. simpl map.
  exact (Set_from_skip JOB_KEYWORDS (map toLowerCase pre) (map toLowerCase post)
           (toLowerCase c) H).
Qed.

Lemma JOB_KEYWORDS_lower (b : string) :
  In b JOB_KEYWORDS -> toLowerCase b = b.
Proof.
  intros H.
  assert (A : forallb (fun k => String.eqb (toLowerCase k) k) JOB_KEYWORDS = true)
    by (vm_compute; reflexivity).
  rewrite forallb_forall in A.
  now apply String.eqb_eq, A.
Qed.

Lemma allKeywordsOf_lower (customs : list string) (k : string) :
  In k (allKeywordsOf customs) -> toLowerCase k = k.
Proof.
  unfold allKeywordsOf. rewrite Set_from_In, in_app_iff.
  intros [H | H].
  - now apply JOB_KEYWORDS_lower.
  - apply in_map_iff in H. destruct H as [c [<- _]]. apply toLowerCase_idem.
Qed.

(** C4, as the code has it.  For every term of the vocabulary that has a
    character which is neither in [[a-z0-9]] nor white space in the sense
    of the class [\s] of the regular expression, [keywordExists] succeeds
    exactly when the lower-cased term is a contiguous substring of the
    lower-cased text.  (On the code units below 256 the class [\s] is
    [isWhiteSpace]: tab, line feed, vertical tab, form feed, carriage
    return, space and no-break space; beyond them it also holds the other
    white space and line terminators of Unicode.)  The text "Experienced in
    C++ and CI/CD pipelines" matches "c++" and "ci/cd". *)
Theorem keywordExists_symbol_substring (text : string) (customs : list string)
  (k : string) :
  In k (allKeywordsOf customs) ->
  existsChar (fun c => negb (isPlainChar c)) k = true ->
  (keywordExists text k = Some true
   <-> isSubstringOf (toLowerCase k) (toLowerCase text))
  /\ (exists b, keywordExists text k = Some b)
  /\ keywordExists "Experienced in C++ and CI/CD pipelines" "c++" = Some true
  /\ keywordExists "Experienced in C++ and CI/CD pipelines" "ci/cd" = Some true.
Proof.
  intros V H.
  rewrite <- (allKeywordsOf_lower customs k V) in H.
  split; [exact (keywordExists_symbol_iff text k H)|].
  split; [apply keywordExists_total|].
  split; vm_compute; reflexivity.
Qed.

Lemma keywordExists_symbol_substring_witness :
  In "c#" (allKeywordsOf ["Unity"])
  /\ existsChar (fun c => negb (isPlainChar c)) "c#" = true
  /\ (keywordExists "Unity and C# scripting" "c#" = Some true
      <-> isSubstringOf (toLowerCase "c#") (toLowerCase "Unity and C# scripting")).
Proof.
  assert (V : In "c#" (allKeywordsOf ["Unity"]))
    by (apply (proj1 (Set_has_In _ _)); vm_compute; reflexivity).
  split; [exact V|]. split; [reflexivity|].
  apply (keywordExists_symbol_substring "Unity and C# scripting" ["Unity"] "c#"
           V eq_refl).
Defined.

(** C4 as stated fails: a tab is outside [[a-z0-9 ]], the vocabulary term
    "a<TAB>b" is a substring of "xa<TAB>by", and the term is not found
    there, since a term of letters and white space takes the word-boundary
    test. *)
Lemma keywordExists_tab_term_not_substring_test :
  In tabTerm (allKeywordsOf [tabTerm])
  /\ existsChar (fun c => negb (isTermChar c)) tabTerm = true
  /\ isSubstringOf (toLowerCase tabTerm) (toLowerCase tabText)
  /\ keywordExists tabText tabTerm = Some false
  /\ ~ (keywordExists tabText tabTerm = Some true
        <-> isSubstringOf (toLowerCase tabTerm) (toLowerCase tabText)).
Proof.
  assert (S : isSubstringOf (toLowerCase tabTerm) (toLowerCase tabText))
    by (now exists "x", "y").
  split; [apply (proj1 (Set_has_In _ _)); vm_compute; reflexivity|].
  split; [reflexivity|]. split; [exact S|].
  split; [vm_compute; reflexivity|].
  intros [_ H]. specialize (H S). vm_compute in H. discriminate.
Qed.

(** ** The scan *)

(** The loop never fails and keeps, in their order, the keywords that the
    test finds. *)
Lemma scanKeywords_filter (lowerText : string) (keywords : list string) :
  forall matched,
    scanKeywords lowerText keywords matched
    = Some (matched ++ filter (keywordFound lowerText) keywords)%list.
Proof.
  induction keywords as [|k keywords IH]; intros matched; simpl.
  - now rewrite app_nil_r.
  - unfold keywordFound at 1.
    destruct (keywordExists_total lowerText k) as [b E]. rewrite E.
    destruct b; rewrite IH; [|reflexivity].
    now rewrite <- app_assoc.
Qed.

Lemma calculateKeywordMatch_eq (text : string) (customs : list string) :
  calculateKeywordMatch text customs
  = let matched :=
      filter (keywordFound (toLowerCase text)) (allKeywordsOf customs) in
    Some {| score := Z.min 100 (Z.of_nat (List.length matched) * 10);
            matchedKeywords := matched |}.
Proof.
  unfold calculateKeywordMatch.
  now rewrite scanKeywords_filter.
Qed.

Lemma Subseq_refl {A : Type} (l : list A) : Subseq l l.
Proof. induction l; constructor; assumption. Qed.

Lemma Subseq_filter {A : Type} (f : A -> bool) (l : list A) :
  Subseq (filter f l) l.
Proof.
  induction l as [|x l IH]; simpl; [constructor|].
  destruct (f x); constructor; exact IH.
Qed.

(** ** The scorer *)

Lemma scenario_result :
  calculateKeywordMatch scenarioText []
  = Some {| score := 70; matchedKeywords := scenarioKeywords |}.
Proof. vm_compute; reflexivity. Qed.

(** C1, as the code has it.  For the text "Senior Python developer with
    AWS and Docker experience, JLPT N2 certified" and no custom term the
    scorer returns the seven terms python, aws, docker, jlpt, n2, senior,
    developer, in the order of the vocabulary, and the score 70: "jlpt" and
    "developer" are terms of the built-in vocabulary too. *)
Theorem calculateKeywordMatch_scenario :
  calculateKeywordMatch scenarioText []
  = Some {| score := 70; matchedKeywords := scenarioKeywords |}
  /\ List.length scenarioKeywords = 7
  /\ Subseq scenarioKeywords JOB_KEYWORDS.
Proof.
  split; [exact scenario_result|]. split; [reflexivity|].
  unfold scenarioKeywords, JOB_KEYWORDS.
  repeat first [apply Subseq_keep | apply Subseq_skip | apply Subseq_nil].
Qed.

(** C1 as stated fails: on the scenario text the scorer does not return
    five terms and the score 50. *)
Lemma calculateKeywordMatch_scenario_not_five :
  exists r,
    calculateKeywordMatch scenarioText [] = Some r
    /\ score r <> 50%Z
    /\ List.length (matchedKeywords r) <> 5
    /\ matchedKeywords r <> ["python"; "aws"; "docker"; "senior"; "n2"]
    /\ In "jlpt" (matchedKeywords r)
    /\ In "developer" (matchedKeywords r).
Proof.
  eexists. split; [apply scenario_result|].
  cbn [score matchedKeywords scenarioKeywords].
  repeat split; try discriminate; simpl; auto 10.
Qed.

(** C2.  The scorer returns, and the score is [min(100, 10 * n)] for the
    number [n] of matched keywords: between 0 and 100, and 100 from ten
    matched keywords on. *)
Theorem calculateKeywordMatch_score (text : string) (customs : list string) :
  exists r,
    calculateKeywordMatch text customs = Some r
    /\ score r = Z.min 100 (Z.of_nat (List.length (matchedKeywords r)) * 10)
    /\ (0 <= score r <= 100)%Z
    /\ (10 <= List.length (matchedKeywords r) -> score r = 100%Z).
Proof.
  rewrite calculateKeywordMatch_eq. cbv zeta.
  eexists. split; [reflexivity|]. cbn [score matchedKeywords].
  split; [reflexivity|]. split; lia.
Qed.

(** C7.  The scorer returns a result for every text and every list of
    custom keywords, and for the empty text the result is the score 0 and
    no keyword. *)
Theorem calculateKeywordMatch_total (text : string) (customs : list string) :
  (exists r, calculateKeywordMatch text customs = Some r)
  /\ calculateKeywordMatch "" customs = Some noMatch.
Proof.
  split.
  - rewrite calculateKeywordMatch_eq. cbv zeta. eauto.
  - rewrite calculateKeywordMatch_eq. cbv zeta.
    assert (E : forall l, filter (keywordFound (toLowerCase "")) l = []).
    { induction l as [|k l IH]; [reflexivity|].
      cbn [filter]. rewrite IH.
      assert (F : keywordFound (toLowerCase "") k = false); [|now rewrite F].
      unfold keywordFound.
      destruct (existsChar isSymbol (toLowerCase k)) eqn:S.
      - rewrite (keywordExists_symbol _ _ S).
        destruct (toLowerCase k); [discriminate | reflexivity].
      - rewrite (keywordExists_word _ _ S). reflexivity. }
    now rewrite E.
Qed.

Lemma matched_NoDup (text : string) (customs : list string) :
  NoDup (filter (keywordFound (toLowerCase text)) (allKeywordsOf customs)).
Proof. apply NoDup_filter, Set_from_NoDup. Qed.

(** C8.  The matched keywords are the keywords of the effective vocabulary
    that the test finds: a subsequence of the vocabulary in the order of the
    scan, with no keyword twice.  The effective vocabulary holds the
    built-in terms and the lower-cased custom terms, each once. *)
Theorem calculateKeywordMatch_subsequence (text : string) (customs : list string) :
  exists r,
    calculateKeywordMatch text customs = Some r
    /\ NoDup (matchedKeywords r)
    /\ Subseq (matchedKeywords r) (allKeywordsOf customs)
    /\ NoDup (allKeywordsOf customs)
    /\ (forall k, In k (allKeywordsOf customs)
                  <-> In k JOB_KEYWORDS \/ In k (map toLowerCase customs))
    /\ (forall k, In k (matchedKeywords r)
                  <-> In k (allKeywordsOf customs)
                      /\ keywordExists (toLowerCase text) k = Some true).
Proof.
  rewrite calculateKeywordMatch_eq. cbv zeta.
  eexists. split; [reflexivity|]. cbn [matchedKeywords].
  split; [apply matched_NoDup|].
  split; [apply Subseq_filter|].
  split; [apply Set_from_NoDup|].
  split.
  - intros k. unfold allKeywordsOf. rewrite Set_from_In. apply in_app_iff.
  - intros k. rewrite filter_In. unfold keywordFound.
    destruct (keywordExists_total (toLowerCase text) k) as [b E]. rewrite E.
    split; intros [H1 H2]; (split; [exact H1|]); congruence.
Qed.

(** C6.  A custom term that equals a built-in term up to letter case
    changes nothing: the result is the result without that custom term, and
    the term is matched at most once. *)
Theorem calculateKeywordMatch_dedup (text : string) (pre post : list string)
  (c b : string) :
  In b JOB_KEYWORDS ->
  toLowerCase c = toLowerCase b ->
  calculateKeywordMatch text (pre ++ c :: post)%list
  = calculateKeywordMatch text (pre ++ post)%list
  /\ exists r,
       calculateKeywordMatch text (pre ++ c :: post)%list = Some r
       /\ count_occ string_dec (matchedKeywords r) (toLowerCase c) <= 1.
Proof.
  intros Hb Hc.
  assert (I : In (toLowerCase c) JOB_KEYWORDS).
  { rewrite Hc. now rewrite (JOB_KEYWORDS_lower b Hb). }
  split.
  - rewrite !calculateKeywordMatch_eq. cbv zeta.
    now rewrite (allKeywordsOf_skip pre post c I).
  - rewrite calculateKeywordMatch_eq. cbv zeta.
    eexists. split; [reflexivity|]. cbn [matchedKeywords].
    apply (proj1 (NoDup_count_occ string_dec _)), matched_NoDup.
Qed.

Lemma calculateKeywordMatch_dedup_witness :
  In "python" JOB_KEYWORDS
  /\ toLowerCase "PYTHON" = toLowerCase "python"
  /\ calculateKeywordMatch "Python and Elm" (["elm"] ++ "PYTHON" :: ["Elm"])%list
     = calculateKeywordMatch "Python and Elm" (["elm"] ++ ["Elm"])%list.
Proof.
  assert (I : In "python" JOB_KEYWORDS) by (simpl; auto 10).
  split; [exact I|]. split; [reflexivity|].
  apply (calculateKeywordMatch_dedup "Python and Elm" ["elm"] ["Elm"]
           "PYTHON" "python" I eq_refl).
Defined.

(** ** The empty keyword *)
















(** ** The extractors *)

(** The serverless extractor is the browser extractor inside [try], with
    the empty string for a rejection. *)
Lemma extractTextFromPDF_eq (getDocument : list Byte.byte -> Outcome PDFDocumentProxy)
  (buf : list Byte.byte) :
  extractTextFromPDF getDocument buf
  = match extractPdfTextFromBlob getDocument buf with
    | Resolved s => Resolved s
    | Rejected _ => Resolved ""
    end.
Proof. reflexivity. Qed.

(** The serverless extractor returns a string for every buffer and every
    behaviour of pdf.js. *)
Lemma extractTextFromPDF_never_rejects
  (getDocument : list Byte.byte -> Outcome PDFDocumentProxy) (buf : list Byte.byte) :
  exists s, extractTextFromPDF getDocument buf = Resolved s.
Proof.
  rewrite extractTextFromPDF_eq.
  destruct (extractPdfTextFromBlob getDocument buf); eauto.
Qed.

(** A page that cannot be read makes the browser extractor reject too. *)
Lemma readPages_rejected_page (pdf : PDFDocumentProxy) (e : JsError)
  (n pageNum : nat) (fullText : string) :
  getPage pdf pageNum = Rejected e ->
  readPages pdf (S n) pageNum fullText = Rejected e.
Proof. intros H. simpl. now rewrite H. Qed.

Lemma allChar_app (p : ascii -> bool) (a b : string) :
  allChar p (a ++ b) = allChar p a && allChar p b.
Proof.
  induction a as [|x a IH]; simpl; [reflexivity|].
  now rewrite IH, andb_assoc.
Qed.

Lemma collapseFrom_white (s : string) :
  forall inRun,
    allChar isWhiteSpace s = true ->
    allChar isWhiteSpace (collapseFrom inRun s) = true.
Proof.
  induction s as [|c s IH]; intros inRun H; simpl in *; [reflexivity|].
  apply andb_true_iff in H. destruct H as [Hc Hs].
  rewrite Hc. destruct inRun; simpl; auto.
Qed.

Lemma trim_white (s : string) :
  allChar isWhiteSpace s = true -> trim s = "".
Proof.
  intros H. unfold trim.
  assert (E : trimStart s = "").
  { induction s as [|c s IH]; simpl in *; [reflexivity|].
    apply andb_true_iff in H. destruct H as [Hc Hs].
    rewrite Hc. now apply IH. }
  now rewrite E.
Qed.

(** Pages without a text item add white space only. *)
Lemma readPages_no_text (pdf : PDFDocumentProxy) :
  (forall n, getPage pdf n
             = Resolved {| getTextContent := Resolved {| items := [] |} |}) ->
  forall remaining pageNum fullText,
    allChar isWhiteSpace fullText = true ->
    exists s,
      readPages pdf remaining pageNum fullText = Resolved s
      /\ allChar isWhiteSpace s = true.
Proof.
  intros Hp. induction remaining as [|n IH]; intros pageNum fullText H; simpl.
  - eauto.
  - rewrite Hp. simpl. apply IH.
    rewrite allChar_app, H. reflexivity.
Qed.

(** A document without a text layer gives the empty string, from both
    extractors. *)
Lemma extract_no_text_layer
  (getDocument : list Byte.byte -> Outcome PDFDocumentProxy)
  (buf : list Byte.byte) (pdf : PDFDocumentProxy) :
  getDocument buf = Resolved pdf ->
  (forall n, getPage pdf n
             = Resolved {| getTextContent := Resolved {| items := [] |} |}) ->
  extractPdfTextFromBlob getDocument buf = Resolved ""
  /\ extractTextFromPDF getDocument buf = Resolved "".
Proof.
  intros Hd Hp.
  assert (E : extractPdfTextFromBlob getDocument buf = Resolved "").
  { unfold extractPdfTextFromBlob. rewrite Hd. cbn [bind].
    destruct (readPages_no_text pdf Hp (numPages pdf) 1 "" eq_refl) as [s [R W]].
    rewrite R. cbn [bind]. f_equal.
    apply trim_white, collapseFrom_white, W. }
  split; [exact E|].
  now rewrite extractTextFromPDF_eq, E.
Qed.

(** C5.  When pdf.js rejects the buffer, the serverless extractor returns
    the empty string, and the browser extractor, which has no [catch],
    rejects with the error of pdf.js. *)
Theorem extractors_on_rejected_document
  (getDocument : list Byte.byte -> Outcome PDFDocumentProxy)
  (buf : list Byte.byte) (e : JsError) :
  getDocument buf = Rejected e ->
  extractTextFromPDF getDocument buf = Resolved ""
  /\ extractPdfTextFromBlob getDocument buf = Rejected e.
Proof.
  intros H.
  assert (E : extractPdfTextFromBlob getDocument buf = Rejected e).
  { unfold extractPdfTextFromBlob. now rewrite H. }
  split; [|exact E].
  now rewrite extractTextFromPDF_eq, E.
Qed.

Lemma extractors_on_rejected_document_witness :
  samplePdfjs [] = Rejected InvalidPDFException
  /\ extractTextFromPDF samplePdfjs [] = Resolved ""
  /\ extractPdfTextFromBlob samplePdfjs [] = Rejected InvalidPDFException.
Proof.
  split; [reflexivity|].
  exact (extractors_on_rejected_document samplePdfjs [] InvalidPDFException eq_refl).
Defined.

Example extract_scanned_sample :
  extractPdfTextFromBlob scannedPdfjs [] = Resolved ""
  /\ extractTextFromPDF scannedPdfjs [] = Resolved "".
Proof. now apply (extract_no_text_layer scannedPdfjs [] _ eq_refl). Qed.

Example extract_text_sample :
  extractTextFromPDF samplePdfjs (list_byte_of_string "Senior  Python developer ")
  = Resolved "Senior Python developer".
Proof. vm_compute; reflexivity. Qed.

(** ** The request handler *)

Lemma take_drop (n : nat) (s : string) : s = take n s ++ drop n s.
Proof.
  revert s. induction n as [|n IH]; intros s; [now destruct s|].
  destruct s as [|c s]; simpl; [reflexivity|].
  now rewrite <- IH.
Qed.

Lemma length_take (n : nat) (s : string) :
  String.length (take n s) = Nat.min n (String.length s).
Proof.
  revert s. induction n as [|n IH]; intros s; [now destruct s|].
  destruct s as [|c s]; simpl; [reflexivity|].
  now rewrite IH.
Qed.

(** [s.substring(0, n)] is the prefix of [s] of length [min(n, length)]. *)
Lemma substring_prefix (s : string) (n : Z) :
  (0 <= n)%Z ->
  substring s 0 n = take (Z.to_nat (Z.min (strlen s) n)) s
  /\ strlen (substring s 0 n) = Z.min (strlen s) n
  /\ exists rest, s = substring s 0 n ++ rest.
Proof.
  intros Hn.
  assert (E : substring s 0 n = take (Z.to_nat (Z.min (strlen s) n)) s).
  { unfold substring, strlen.
    replace (Z.to_nat (Z.min (Z.min (Z.max 0 0) (Z.of_nat (String.length s)))
                         (Z.min (Z.max n 0) (Z.of_nat (String.length s)))))
      with 0 by lia.
    replace (Z.max (Z.min (Z.max 0 0) (Z.of_nat (String.length s)))
               (Z.min (Z.max n 0) (Z.of_nat (String.length s)))
             - Z.min (Z.min (Z.max 0 0) (Z.of_nat (String.length s)))
                 (Z.min (Z.max n 0) (Z.of_nat (String.length s))))%Z
      with (Z.min (Z.of_nat (String.length s)) n) by lia.
    now destruct s. }
  rewrite E. split; [reflexivity|]. split.
  - unfold strlen. rewrite length_take. unfold strlen. lia.
  - eexists. apply take_drop.
Qed.

Example substring_sample :
  substring "Senior Python developer" 0 6 = "Senior"
  /\ substring "Senior" 0 50000 = "Senior"
  /\ substring "Senior" 4 (-1) = "Seni".
Proof. repeat split; vm_compute; reflexivity. Qed.

(** C9.  Every update that the handler sends carries the first
    [min(length, 50000)] characters of the extracted text, and the matched
    keywords and the score as the scorer returned them. *)
Theorem handler_truncates_text
  (getDocument : list Byte.byte -> Outcome PDFDocumentProxy)
  (download : string -> string + list Byte.byte)
  (update : string -> ApplicantUpdate -> option string)
  (req : Request) (id : string) (row : ApplicantUpdate) :
  issued (handler getDocument download update req) = Some (id, row) ->
  exists b path pdfBuffer extractedText r,
    json req = Resolved b
    /\ applicantId b = Some id
    /\ cvFilePath b = Some path
    /\ download path = inr pdfBuffer
    /\ extractTextFromPDF getDocument pdfBuffer = Resolved extractedText
    /\ calculateKeywordMatch extractedText
         (match customKeywords b with Some l => l | None => [] end) = Some r
    /\ cv_extracted_text row = substring extractedText 0 50000
    /\ strlen (cv_extracted_text row) = Z.min (strlen extractedText) 50000
    /\ (exists rest, extractedText = cv_extracted_text row ++ rest)
    /\ matched_keywords row = matchedKeywords r
    /\ keyword_match_score row = score r.
Proof.
  unfold handler, internalError, respond.
  destruct (String.eqb (method req) "OPTIONS"); [discriminate|].
  destruct (json req) as [b|e]; [|discriminate].
  destruct (applicantId b) as [i|] eqn:Ei; [|discriminate].
  destruct (cvFilePath b) as [path|] eqn:Ep;
    [|cbn [missing]; rewrite orb_true_r; discriminate].
  destruct (missing (Some i) || missing (Some path)); [discriminate|].
  destruct (download path) as [m|pdfBuffer] eqn:Ed; [discriminate|].
  destruct (extractTextFromPDF getDocument pdfBuffer) as [text|e] eqn:Ex;
    [|discriminate].
  destruct (calculateKeywordMatch text _) as [r|] eqn:Ec; [|discriminate].
  intros H.
  assert (R : (id, row)
              = (i, {| cv_extracted_text := substring text 0 50000;
                       matched_keywords := matchedKeywords r;
                       keyword_match_score := score r |})).
  { destruct (update i _); cbn [issued] in H; congruence. }
  injection R as -> ->.
  exists b, path, pdfBuffer, text, r.
  cbn [cv_extracted_text matched_keywords keyword_match_score].
  destruct (substring_prefix text 50000 ltac:(lia)) as [_ [L P]].
  repeat split; auto.
Qed.


Lemma handler_truncates_text_witness :
  issued (handler samplePdfjs sampleDownload sampleUpdate sampleRequest)
  = Some ("42", sampleRow)
  /\ exists b path pdfBuffer extractedText r,
       json sampleRequest = Resolved b
       /\ applicantId b = Some "42"
       /\ cvFilePath b = Some path
       /\ sampleDownload path = inr pdfBuffer
       /\ extractTextFromPDF samplePdfjs pdfBuffer = Resolved extractedText
       /\ calculateKeywordMatch extractedText
            (match customKeywords b with Some l => l | None => [] end) = Some r
       /\ cv_extracted_text sampleRow = substring extractedText 0 50000
       /\ strlen (cv_extracted_text sampleRow) = Z.min (strlen extractedText) 50000
       /\ (exists rest, extractedText = cv_extracted_text sampleRow ++ rest)
       /\ matched_keywords sampleRow = matchedKeywords r
       /\ keyword_match_score sampleRow = score r.
Proof.
  assert (I : issued (handler samplePdfjs sampleDownload sampleUpdate sampleRequest)
              = Some ("42", sampleRow))
    by (vm_compute; reflexivity).
  split; [exact I|].
  exact (handler_truncates_text samplePdfjs sampleDownload sampleUpdate
           sampleRequest "42" sampleRow I).
Defined.

(* ================================================================== *)
(** * Part IV: further properties of the code *)
(* ================================================================== *)

(** ** The normalized text of the extractors *)

Lemma spaced_collapseFrom (s : string) :
  forall b, spaced b (collapseFrom b s) = true.
Proof.
  induction s as [|c s IH]; intros b; simpl; [reflexivity|].
  destruct (isWhiteSpace c) eqn:W.
  - destruct b; [apply IH|].
    simpl. now rewrite IH.
  - simpl. rewrite W. apply IH.
Qed.

Lemma spaced_tail (b : bool) (c : ascii) (r : string) :
  spaced b (String c r) = true -> spaced (isWhiteSpace c) r = true.
Proof.
  simpl. destruct (isWhiteSpace c); [|trivial].
  intros H. apply andb_true_iff in H. apply H.
Qed.

Lemma spaced_trimStart (s : string) :
  forall b, spaced b s = true -> spaced true (trimStart s) = true.
Proof.
  induction s as [|c s IH]; intros b H; [reflexivity|].
  pose proof (spaced_tail b c s H) as T.
  simpl. destruct (isWhiteSpace c) eqn:W.
  - now apply (IH true).
  - simpl. now rewrite W.
Qed.

Lemma spaced_trimEnd (s : string) :
  forall b, spaced b s = true -> spaced b (trimEnd s) = true.
Proof.
  induction s as [|c s IH]; intros b H; [reflexivity|].
  pose proof (spaced_tail b c s H) as T.
  apply IH in T.
  simpl in *. destruct (trimEnd s) as [|x r'] eqn:E.
  - destruct (isWhiteSpace c) eqn:W; [reflexivity|].
    simpl. now rewrite W.
  - change (spaced b (String c (String x r')) = true).
    cbn [spaced]. cbn [spaced] in T.
    destruct (isWhiteSpace c) eqn:W; [|exact T].
    apply andb_true_iff in H. destruct H as [H _]. rewrite H. exact T.
Qed.

Lemma trimStart_first (s : string) :
  isWhiteSpaceAt (firstChar (trimStart s)) = false.
Proof.
  induction s as [|c s IH]; simpl; [reflexivity|].
  destruct (isWhiteSpace c) eqn:W; [exact IH | exact W].
Qed.

Lemma trimEnd_first (s : string) :
  isWhiteSpaceAt (firstChar s) = false ->
  isWhiteSpaceAt (firstChar (trimEnd s)) = false.
Proof.
  destruct s as [|c s]; simpl; [trivial|].
  intros W. destruct (trimEnd s); [now rewrite W | exact W].
Qed.

Lemma trimEnd_last (s : string) :
  isWhiteSpaceAt (lastChar (trimEnd s)) = false.
Proof.
  induction s as [|c s IH]; simpl; [reflexivity|].
  destruct (trimEnd s) as [|x r'] eqn:E.
  - destruct (isWhiteSpace c) eqn:W; [reflexivity | exact W].
  - exact IH.
Qed.

Lemma spaced_only_spaces (s : string) :
  forall b, spaced b s = true ->
  forall c, In c (chars s) -> isWhiteSpace c = true -> c = " "%char.
Proof.
  induction s as [|x s IH]; intros b H c I W; [destruct I|].
  pose proof (spaced_tail b x s H) as T.
  destruct I as [-> | I]; [|now apply (IH _ T)].
  simpl in H. rewrite W in H.
  apply andb_true_iff in H. destruct H as [H _].
  apply andb_true_iff in H. destruct H as [H _].
  now apply Ascii.eqb_eq in H.
Qed.

Lemma spaced_no_double (s : string) :
  forall b, spaced b s = true -> ~ isSubstringOf "  " s.
Proof.
  intros b H [pre [post E]]. subst s. revert b H.
  induction pre as [|c pre IH]; intros b H.
  - destruct b; vm_compute in H; discriminate.
  - apply (IH (isWhiteSpace c)). exact (spaced_tail b c _ H).
Qed.

(** What [replace(/\s+/g, " ").trim()] returns is normalized. *)
Lemma normalize_isNormalized (s : string) : isNormalized (normalize s).
Proof.
  unfold normalize, trim, collapseWhiteSpace.
  assert (S : spaced true (trimEnd (trimStart (collapseFrom false s))) = true).
  { apply spaced_trimEnd, (spaced_trimStart _ false), spaced_collapseFrom. }
  split; [exact (spaced_only_spaces _ _ S)|].
  split; [exact (spaced_no_double _ _ S)|].
  split; [apply trimEnd_first, trimStart_first | apply trimEnd_last].
Qed.

Lemma isSubstringOf_tail (k : string) (c : ascii) (s : string) :
  isSubstringOf k s -> isSubstringOf k (String c s).
Proof. intros [pre [post ->]]. now exists (String c pre), post. Qed.

Lemma spaced_of_normalized (s : string) :
  forall b,
    (forall c, In c (chars s) -> isWhiteSpace c = true -> c = " "%char) ->
    ~ isSubstringOf "  " s ->
    (b = true -> isWhiteSpaceAt (firstChar s) = false) ->
    spaced b s = true.
Proof.
  induction s as [|x s IH]; intros b H1 H2 H3; [reflexivity|].
  assert (H1' : forall c, In c (chars s) -> isWhiteSpace c = true -> c = " "%char)
    by (intros c I; apply H1; now right).
  assert (H2' : ~ isSubstringOf "  " s)
    by (intros S; apply H2; now apply isSubstringOf_tail).
  simpl. destruct (isWhiteSpace x) eqn:W.
  - assert (X : x = " "%char) by (apply H1; [now left | exact W]).
    subst x.
    assert (B : b = false).
    { destruct b; [|reflexivity]. specialize (H3 eq_refl). simpl in H3. congruence. }
    subst b. simpl. apply (IH true H1' H2'). intros _.
    destruct s as [|y s]; [reflexivity|]. simpl.
    destruct (isWhiteSpace y) eqn:Wy; [|reflexivity].
    exfalso. apply H2.
    assert (Y : y = " "%char) by (apply H1; [right; now left | exact Wy]).
    subst y. now exists "", s.
  - apply (IH false H1' H2'). discriminate.
Qed.

Lemma collapseFrom_spaced (s : string) :
  forall b, spaced b s = true -> collapseFrom b s = s.
Proof.
  induction s as [|c s IH]; intros b H; [reflexivity|].
  pose proof (spaced_tail b c s H) as T.
  simpl in *. destruct (isWhiteSpace c) eqn:W.
  - apply andb_true_iff in H. destruct H as [H _].
    apply andb_true_iff in H. destruct H as [E B].
    apply Ascii.eqb_eq in E. subst c.
    destruct b; [discriminate|]. now rewrite (IH true T).
  - now rewrite (IH false T).
Qed.

Lemma trimStart_fixed (s : string) :
  isWhiteSpaceAt (firstChar s) = false -> trimStart s = s.
Proof. destruct s as [|c s]; simpl; [trivial|]. now intros ->. Qed.

Lemma trimEnd_fixed (s : string) :
  isWhiteSpaceAt (lastChar s) = false -> trimEnd s = s.
Proof.
  induction s as [|c s IH]; [reflexivity|].
  intros H. simpl. destruct s as [|x s].
  - simpl in *. now rewrite H.
  - rewrite IH by exact H. reflexivity.
Qed.

(** X1.  The text that either extractor returns is normalized: its white
    space is single spaces only, and it neither starts nor ends with one. *)
Theorem extractors_return_normalized_text
  (getDocument : list Byte.byte -> Outcome PDFDocumentProxy)
  (buf : list Byte.byte) :
  (exists s, extractTextFromPDF getDocument buf = Resolved s /\ isNormalized s)
  /\ (forall s, extractPdfTextFromBlob getDocument buf = Resolved s ->
                isNormalized s).
Proof.
  assert (N : forall s, extractPdfTextFromBlob getDocument buf = Resolved s ->
                        isNormalized s).
  { unfold extractPdfTextFromBlob. intros s.
    destruct (getDocument buf) as [pdf|e]; cbn [bind]; [|discriminate].
    destruct (readPages pdf (numPages pdf) 1 "") as [t|e]; cbn [bind]; [|discriminate].
    intros [= <-]. apply (normalize_isNormalized t). }
  split; [|exact N].
  rewrite extractTextFromPDF_eq.
  destruct (extractPdfTextFromBlob getDocument buf) as [s|e] eqn:E.
  - exists s. split; [reflexivity | now apply N].
  - exists "". split; [reflexivity|].
    exact (normalize_isNormalized "").
Qed.

(** X2.  The normalization leaves exactly the normalized texts unchanged;
    in particular it is idempotent. *)
Theorem normalize_fixes_normalized (s : string) :
  (normalize s = s <-> isNormalized s)
  /\ normalize (normalize s) = normalize s.
Proof.
  assert (F : forall t, isNormalized t -> normalize t = t).
  { intros t [H1 [H2 [H3 H4]]].
    unfold normalize, trim, collapseWhiteSpace.
    rewrite (collapseFrom_spaced t false)
      by (apply spaced_of_normalized; [exact H1 | exact H2 | discriminate]).
    now rewrite (trimStart_fixed t H3), (trimEnd_fixed t H4). }
  split.
  - split; [|apply F].
    intros E. rewrite <- E. apply normalize_isNormalized.
  - apply F, normalize_isNormalized.
Qed.

(** ** The loop over the pages *)

Lemma readPages_step (pdf : PDFDocumentProxy) (n pageNum : nat) (fullText : string) :
  readPages pdf (S n) pageNum fullText
  = (its <- pageItems pdf pageNum ;;
     readPages pdf n (S pageNum) (fullText ++ pageText its)).
Proof.
  unfold pageItems, pageText. cbn [readPages].
  destruct (getPage pdf pageNum) as [page|e]; cbn [bind]; [|reflexivity].
  destruct (getTextContent page) as [content|e]; reflexivity.
Qed.

(** The loop reads the pages [pageNum], [pageNum + 1], ... in this order
    and appends the text of each. *)
Lemma readPages_in_order (pdf : PDFDocumentProxy) (contents : nat -> list TextItem)
  (n : nat) :
  forall pageNum fullText,
    (forall p, pageNum <= p < pageNum + n -> pageItems pdf p = Resolved (contents p)) ->
    readPages pdf n pageNum fullText
    = Resolved (fullText
                ++ concatStrings (map (fun p => pageText (contents p)) (seq pageNum n))).
Proof.
  induction n as [|n IH]; intros pageNum fullText H.
  - simpl. now rewrite str_app_nil_r.
  - rewrite readPages_step, (H pageNum) by lia. cbn [bind].
    rewrite IH by (intros p Hp; apply H; lia).
    cbn [seq map concatStrings]. now rewrite str_app_assoc.
Qed.

(** One page that cannot be read makes the loop reject. *)
Lemma readPages_rejects (pdf : PDFDocumentProxy) (p : nat) (e : JsError) (n : nat) :
  pageItems pdf p = Rejected e ->
  forall pageNum fullText,
    pageNum <= p < pageNum + n ->
    exists e', readPages pdf n pageNum fullText = Rejected e'.
Proof.
  intros Hp. induction n as [|n IH]; intros pageNum fullText R; [lia|].
  rewrite readPages_step.
  destruct (pageItems pdf pageNum) as [its|e'] eqn:E; cbn [bind]; [|eauto].
  apply IH.
  assert (pageNum <> p) by (intros ->; congruence).
  lia.
Qed.

(** X3.  When every page from 1 to [numPages] can be read, both
    extractors return the normalized concatenation of the page texts in
    ascending page order, each page being its items joined by a space and
    followed by a line feed. *)
Theorem extractors_read_pages_in_order
  (getDocument : list Byte.byte -> Outcome PDFDocumentProxy)
  (buf : list Byte.byte) (pdf : PDFDocumentProxy)
  (contents : nat -> list TextItem) :
  getDocument buf = Resolved pdf ->
  (forall p, 1 <= p <= numPages pdf -> pageItems pdf p = Resolved (contents p)) ->
  extractPdfTextFromBlob getDocument buf
  = Resolved (normalize (concatStrings
                           (map (fun p => pageText (contents p))
                              (seq 1 (numPages pdf)))))
  /\ extractTextFromPDF getDocument buf = extractPdfTextFromBlob getDocument buf.
Proof.
  intros Hd Hp.
  assert (E : extractPdfTextFromBlob getDocument buf
              = Resolved (normalize (concatStrings
                                       (map (fun p => pageText (contents p))
                                          (seq 1 (numPages pdf)))))).
  { unfold extractPdfTextFromBlob. rewrite Hd. cbn [bind].
    rewrite (readPages_in_order pdf contents (numPages pdf) 1 "")
      by (intros p R; apply Hp; lia).
    reflexivity. }
  split; [exact E|].
  now rewrite extractTextFromPDF_eq, E.
Qed.

Lemma extractors_read_pages_in_order_witness :
  twoPagePdfjs [] = Resolved
                      {| numPages := 2;
                         getPage := fun p =>
                           if Nat.eqb p 1 || Nat.eqb p 2
                           then Resolved {| getTextContent :=
                                              Resolved {| items := twoPageItems p |} |}
                           else Rejected (OtherError "Invalid page request.") |}
  /\ extractTextFromPDF twoPagePdfjs [] = Resolved "Curriculum Vitae Rust".
Proof.
  split; [reflexivity|].
  destruct (extractors_read_pages_in_order twoPagePdfjs [] _ twoPageItems eq_refl)
    as [E1 E2].
  - intros p R. cbn [numPages] in R.
    assert (C : p = 1 \/ p = 2) by lia.
    destruct C as [-> | ->]; reflexivity.
  - rewrite E2, E1. reflexivity.
Defined.

(** X4.  When a page of the document cannot be read, the text of the pages
    that were read is lost: the serverless extractor returns the empty
    string and the browser extractor rejects. *)
Theorem extractors_on_unreadable_page
  (getDocument : list Byte.byte -> Outcome PDFDocumentProxy)
  (buf : list Byte.byte) (pdf : PDFDocumentProxy) (p : nat) (e : JsError) :
  getDocument buf = Resolved pdf ->
  1 <= p <= numPages pdf ->
  pageItems pdf p = Rejected e ->
  extractTextFromPDF getDocument buf = Resolved ""
  /\ exists e', extractPdfTextFromBlob getDocument buf = Rejected e'.
Proof.
  intros Hd R Hp.
  destruct (readPages_rejects pdf p e (numPages pdf) Hp 1 "") as [e' E]; [lia|].
  assert (B : extractPdfTextFromBlob getDocument buf = Rejected e').
  { unfold extractPdfTextFromBlob. rewrite Hd. cbn [bind]. now rewrite E. }
  split; [|eauto].
  now rewrite extractTextFromPDF_eq, B.
Qed.

Lemma extractors_on_unreadable_page_witness :
  pageItems {| numPages := 3;
               getPage := fun p =>
                 if Nat.eqb p 2 then Rejected (OtherError "Bad page")
                 else Resolved {| getTextContent :=
                                    Resolved {| items := twoPageItems p |} |} |} 2
  = Rejected (OtherError "Bad page")
  /\ extractTextFromPDF brokenPagePdfjs [] = Resolved ""
  /\ exists e', extractPdfTextFromBlob brokenPagePdfjs [] = Rejected e'.
Proof.
  split; [reflexivity|].
  apply (extractors_on_unreadable_page brokenPagePdfjs [] _ 2
           (OtherError "Bad page") eq_refl).
  - cbn [numPages]. lia.
  - reflexivity.
Defined.

(** ** More on the scorer *)




Lemma fold_Set_add_extends (l : list string) :
  forall s,
    exists more,
      fold_left Set_add l s = (s ++ more)%list
      /\ forall k, In k more -> In k l /\ ~ In k s.
Proof.
  induction l as [|x l IH]; intros s; simpl.
  - exists []. split; [now rewrite app_nil_r | intros k []].
  - destruct (IH (Set_add s x)) as [more [E M]]. rewrite E.
    unfold Set_add in *. destruct (Set_has s x) eqn:H.
    + exists more. split; [reflexivity|].
      intros k I. destruct (M k I). auto.
    + exists (x :: more). split; [now rewrite <- app_assoc|].
      intros k [<- | I].
      * split; [now left|]. intros I. apply Set_has_In in I. congruence.
      * destruct (M k I) as [M1 M2]. split; [now right|].
        intros J. apply M2, in_app_iff. now left.
Qed.

Lemma fold_Set_add_distinct (l : list string) :
  forall s, NoDup (s ++ l)%list -> fold_left Set_add l s = (s ++ l)%list.
Proof.
  induction l as [|x l IH]; intros s N; simpl.
  - now rewrite app_nil_r.
  - assert (X : ~ In x s).
    { apply NoDup_remove_2 in N. intros I. apply N, in_app_iff. now left. }
    unfold Set_add.
    destruct (Set_has s x) eqn:H; [apply Set_has_In in H; contradiction|].
    rewrite IH; rewrite <- app_assoc; [reflexivity | exact N].
Qed.

Lemma JOB_KEYWORDS_NoDup : NoDup JOB_KEYWORDS.
Proof.
  pose proof (Set_from_NoDup JOB_KEYWORDS) as N.
  assert (E : Set_from JOB_KEYWORDS = JOB_KEYWORDS) by (vm_compute; reflexivity).
  now rewrite E in N.
Qed.

(** The vocabulary is the built-in list followed by the new custom
    keywords. *)
Lemma allKeywordsOf_extends (customs : list string) :
  exists more,
    allKeywordsOf customs = (JOB_KEYWORDS ++ more)%list
    /\ forall k, In k more -> In k (map toLowerCase customs) /\ ~ In k JOB_KEYWORDS.
Proof.
  unfold allKeywordsOf, Set_from. rewrite fold_left_app.
  rewrite (fold_Set_add_distinct JOB_KEYWORDS [] JOB_KEYWORDS_NoDup).
  apply fold_Set_add_extends.
Qed.

(** X6.  The built-in keywords are scanned first: the result without
    custom keywords is a prefix of the result with them, what follows are
    lower-cased custom keywords that are not built in, and the score with
    custom keywords is never lower. *)
Theorem custom_keywords_only_add (text : string) (customs : list string) :
  exists r0 r more,
    calculateKeywordMatch text [] = Some r0
    /\ calculateKeywordMatch text customs = Some r
    /\ matchedKeywords r = (matchedKeywords r0 ++ more)%list
    /\ (forall k, In k (matchedKeywords r0) -> In k JOB_KEYWORDS)
    /\ (forall k, In k more ->
                  In k (map toLowerCase customs) /\ ~ In k JOB_KEYWORDS)
    /\ (score r0 <= score r)%Z.
Proof.
  rewrite !calculateKeywordMatch_eq. cbv zeta.
  destruct (allKeywordsOf_extends customs) as [more [E M]].
  destruct (allKeywordsOf_extends []) as [none [E0 M0]].
  assert (N : none = []).
  { destruct none as [|k none]; [reflexivity|].
    destruct (M0 k (or_introl eq_refl)) as [[] _]. }
  subst none. rewrite app_nil_r in E0.
  rewrite E, E0, filter_app.
  do 3 eexists. split; [reflexivity|]. split; [reflexivity|].
  cbn [score matchedKeywords].
  split; [reflexivity|]. split.
  - intros k I.
    exact (proj1 (proj1 (filter_In _ k JOB_KEYWORDS) I)).
  - split.
    + intros k I.
      exact (M k (proj1 (proj1 (filter_In _ k more) I))).
    + rewrite length_app. lia.
Qed.

(** X7.  A custom keyword that repeats an earlier custom keyword up to
    letter case changes nothing. *)
Theorem repeated_custom_keyword (text : string) (pre mid post : list string)
  (c c' : string) :
  toLowerCase c' = toLowerCase c ->
  calculateKeywordMatch text (pre ++ c :: mid ++ c' :: post)%list
  = calculateKeywordMatch text (pre ++ c :: mid ++ post)%list.
Proof.
  intros H. rewrite !calculateKeywordMatch_eq. cbv zeta.
  assert (E : allKeywordsOf (pre ++ c :: mid ++ c' :: post)%list
              = allKeywordsOf (pre ++ c :: mid ++ post)%list).
  { unfold allKeywordsOf.
    assert (R : forall l,
               (JOB_KEYWORDS ++ map toLowerCase (pre ++ c :: mid ++ l))%list
               = ((JOB_KEYWORDS ++ map toLowerCase pre ++ [toLowerCase c])
                  ++ map toLowerCase mid ++ map toLowerCase l)%list).
    { intros l. rewrite !map_app. cbn [map]. rewrite !map_app.
      rewrite <- !app_assoc. reflexivity. }
    rewrite !R. cbn [map]. apply Set_from_skip.
    rewrite H, !in_app_iff. right. right. now left. }
  now rewrite E.
Qed.

Lemma repeated_custom_keyword_witness :
  toLowerCase "ELM" = toLowerCase "Elm"
  /\ calculateKeywordMatch "Elm and Rust" (["cobol"] ++ "Elm" :: ["rust"] ++ "ELM" :: [])%list
     = calculateKeywordMatch "Elm and Rust" (["cobol"] ++ "Elm" :: ["rust"] ++ [])%list.
Proof.
  split; [reflexivity|].
  exact (repeated_custom_keyword "Elm and Rust" ["cobol"] ["rust"] [] "Elm" "ELM" eq_refl).
Defined.

(** ** The escaping of the keyword *)

Lemma isSpecial_syntax (c : ascii) : isSpecial c = RegExp.isSyntaxCharacter c.
Proof.
  apply eqb_prop.
  char_table c.
Qed.

Lemma parse_escaped (k rest : string) :
  RegExp.parse (escapeRegExp k ++ rest)
  = option_map (app (map RegExp.PatternChar (chars k))) (RegExp.parse rest).
Proof.
  induction k as [|c k IH].
  - simpl. now destruct (RegExp.parse rest).
  - cbn [escapeRegExp]. destruct (isSpecial c) eqn:S.
    + cbn [append RegExp.parse chars map].
      change (Ascii.eqb "\" "\") with true. cbv iota.
      assert (B : Ascii.eqb c "b" = false).
      { destruct (Ascii.eqb c "b") eqn:B; [|reflexivity].
        apply Ascii.eqb_eq in B. subst c. discriminate. }
      rewrite B, <- isSpecial_syntax, S, IH.
      now destruct (RegExp.parse rest).
    + cbn [append RegExp.parse chars map].
      assert (B : Ascii.eqb c "\" = false).
      { destruct (Ascii.eqb c "\") eqn:B; [|reflexivity].
        apply Ascii.eqb_eq in B. subst c. discriminate. }
      rewrite B, <- isSpecial_syntax, S, IH.
      now destruct (RegExp.parse rest).
Qed.

(** X8.  The escaping does its work for every keyword, with or without
    special characters: the pattern [\b...\b] built from the escaped
    keyword is accepted by the constructor and stands for the characters of
    the keyword, each matching itself, between two word boundaries. *)
Theorem escaped_pattern_is_literal (k : string) :
  RegExp.create (boundedPattern (escapeRegExp k)) "i"
  = Some (RegExp.mk (boundedTerms k) true).
Proof.
  unfold RegExp.create, boundedPattern, boundedTerms.
  change ("\b" ++ escapeRegExp k ++ "\b")
    with (String "\" (String "b" (escapeRegExp k ++ "\b"))).
  cbn [RegExp.parse]. cbn [Ascii.eqb Bool.eqb].
  now rewrite parse_escaped.
Qed.

(** X9.  The escaping never changes a keyword that reaches the regular
    expression: a keyword with a special character has a symbol and is
    searched with [includes]. *)
Theorem escaping_is_idle_on_word_branch (text k : string) :
  escapeRegExp (toLowerCase k) <> toLowerCase k ->
  existsChar isSpecial (toLowerCase k) = true
  /\ keywordExists text k = Some (includes (toLowerCase text) (toLowerCase k)).
Proof.
  intros H.
  assert (S : existsChar isSpecial (toLowerCase k) = true).
  { destruct (existsChar isSpecial (toLowerCase k)) eqn:E; [reflexivity|].
    exfalso. apply H. clear H.
    induction (toLowerCase k) as [|c s IH]; [reflexivity|].
    simpl in *. apply orb_false_iff in E. destruct E as [Ec Es].
    now rewrite Ec, (IH Es). }
  split; [exact S|].
  apply keywordExists_symbol.
  clear H. induction (toLowerCase k) as [|c s IH]; [discriminate|].
  simpl in *. apply orb_true_iff in S. destruct S as [Sc | Ss].
  - now rewrite (isSpecial_symbol c Sc).
  - rewrite (IH Ss). apply orb_true_r.
Qed.

Lemma escaping_is_idle_on_word_branch_witness :
  escapeRegExp (toLowerCase "Node.js") <> toLowerCase "Node.js"
  /\ keywordExists "Built with node.js" "Node.js" = Some true.
Proof.
  assert (H : escapeRegExp (toLowerCase "Node.js") <> toLowerCase "Node.js")
    by (vm_compute; discriminate).
  split; [exact H|].
  destruct (escaping_is_idle_on_word_branch "Built with node.js" "Node.js" H) as [_ E].
  rewrite E. reflexivity.
Defined.

(** ** More on the request handler *)








(** ** The custom keywords of the dashboard *)

Lemma isSeparator_spec (c : ascii) :
  isSeparator c = Ascii.eqb c "," || isWhiteSpace c.
Proof.
  apply eqb_prop.
  char_table c.
Qed.

Lemma isSeparator_lowerChar (c : ascii) :
  isSeparator (lowerChar c) = isSeparator c.
Proof.
  apply eqb_prop.
  char_table c.
Qed.

Lemma splitFrom_nonempty (s : string) : forall b, splitFrom b s <> [].
Proof.
  induction s as [|c s IH]; intros b; simpl; [discriminate|].
  destruct (isSeparator c).
  - destruct b; [apply IH | discriminate].
  - destruct (splitFrom false s); discriminate.
Qed.

(** The step of [splitFrom] at a code unit that is no separator. *)
Lemma splitFrom_keep (b : bool) (x : ascii) (t : string) :
  isSeparator x = false ->
  splitFrom b (String x t)
  = String x (hd "" (splitFrom false t)) :: tl (splitFrom false t).
Proof.
  intros H. simpl. rewrite H.
  pose proof (splitFrom_nonempty t false) as N.
  destruct (splitFrom false t); [contradiction | reflexivity].
Qed.

Lemma splitFrom_skip (b : bool) (x : ascii) (t : string) :
  isSeparator x = true ->
  splitFrom b (String x t)
  = if b then splitFrom true t else "" :: splitFrom true t.
Proof. intros H. simpl. now rewrite H. Qed.

Lemma pieces_without_separator (s : string) :
  forall b p, In p (splitFrom b s) -> existsChar isSeparator p = false.
Proof.
  induction s as [|c s IH]; intros b p I.
  - destruct I as [<- | []]. reflexivity.
  - destruct (isSeparator c) eqn:S.
    + rewrite (splitFrom_skip b c s S) in I.
      destruct b; [now apply (IH true)|].
      destruct I as [<- | I]; [reflexivity | now apply (IH true)].
    + rewrite (splitFrom_keep b c s S) in I.
      pose proof (splitFrom_nonempty s false) as N.
      destruct (splitFrom false s) as [|piece pieces] eqn:E; [contradiction|].
      cbn [hd tl] in I. destruct I as [<- | I].
      * simpl. rewrite S. apply (IH false). rewrite E. now left.
      * apply (IH false). rewrite E. now right.
Qed.

Lemma pieces_lower (s : string) :
  toLowerCase s = s ->
  forall b p, In p (splitFrom b s) -> toLowerCase p = p.
Proof.
  induction s as [|c s IH]; intros L b p I.
  - destruct I as [<- | []]. reflexivity.
  - simpl in L. injection L as Lc Ls.
    destruct (isSeparator c) eqn:S.
    + rewrite (splitFrom_skip b c s S) in I.
      destruct b; [now apply (IH Ls true)|].
      destruct I as [<- | I]; [reflexivity | now apply (IH Ls true)].
    + rewrite (splitFrom_keep b c s S) in I.
      pose proof (splitFrom_nonempty s false) as N.
      destruct (splitFrom false s) as [|piece pieces] eqn:E; [contradiction|].
      cbn [hd tl] in I. destruct I as [<- | I].
      * simpl. rewrite Lc. f_equal. apply (IH Ls false). rewrite E. now left.
      * apply (IH Ls false). rewrite E. now right.
Qed.

(** Every piece is a part of the string, and the first piece of a string
    read from its start is a prefix of it. *)
Lemma pieces_occur (s : string) :
  forall b,
    (b = false -> exists post, s = hd "" (splitFrom b s) ++ post)
    /\ forall p, In p (splitFrom b s) -> isSubstringOf p s.
Proof.
  induction s as [|c s IH]; intros b.
  - split; [intros _; now exists "" | intros p [<- | []]; now exists "", ""].
  - destruct (isSeparator c) eqn:S.
    + rewrite (splitFrom_skip b c s S). destruct b.
      * split; [discriminate|].
        intros p I. apply isSubstringOf_tail. now apply (IH true).
      * split; [intros _; now exists (String c s)|].
        intros p [<- | I]; [now exists "", (String c s)|].
        apply isSubstringOf_tail. now apply (IH true).
    + rewrite (splitFrom_keep b c s S).
      destruct (IH false) as [P Q]. destruct (P eq_refl) as [post E].
      assert (H : String c s = String c (hd "" (splitFrom false s)) ++ post)
        by (simpl; now rewrite <- E).
      split; [intros _; now exists post|].
      intros p [<- | I]; [now exists "", post|].
      apply isSubstringOf_tail, Q.
      pose proof (splitFrom_nonempty s false) as N.
      destruct (splitFrom false s); [contradiction | now right].
Qed.

Lemma no_separator_no_space (p : string) :
  existsChar isSeparator p = false -> existsChar isWhiteSpace p = false.
Proof.
  induction p as [|c p IH]; simpl; [trivial|].
  rewrite isSeparator_spec. intros H.
  apply orb_false_iff in H. destruct H as [Hc Hp].
  apply orb_false_iff in Hc. destruct Hc as [_ Hc].
  now rewrite Hc, IH.
Qed.

Lemma lastCharFrom_no_space (p : string) :
  existsChar isWhiteSpace p = false ->
  forall prev, isWhiteSpaceAt prev = false ->
               isWhiteSpaceAt (lastCharFrom prev p) = false.
Proof.
  induction p as [|c p IH]; simpl; intros H prev Hp; [exact Hp|].
  apply orb_false_iff in H. destruct H as [Hc H].
  now apply IH.
Qed.

(** [trim] leaves a piece as it is. *)
Lemma trim_no_space (p : string) :
  existsChar isWhiteSpace p = false -> trim p = p.
Proof.
  intros H. unfold trim.
  assert (F : isWhiteSpaceAt (firstChar p) = false).
  { destruct p as [|c p]; [reflexivity|]. simpl in *.
    now apply orb_false_iff in H. }
  rewrite (trimStart_fixed p F).
  apply trimEnd_fixed. unfold lastChar.
  now apply lastCharFrom_no_space.
Qed.

Lemma customKeywordsOf_eq (keywords : string) :
  customKeywordsOf keywords = keptPieces (splitFrom false (toLowerCase keywords)).
Proof. reflexivity. Qed.

Lemma keptPieces_In (pieces : list string) (k : string) :
  (forall p, In p pieces -> existsChar isSeparator p = false) ->
  In k (keptPieces pieces) <-> In k pieces /\ k <> "".
Proof.
  intros H. unfold keptPieces. rewrite filter_In, in_map_iff. split.
  - intros [[p [E I]] L].
    rewrite (trim_no_space p (no_separator_no_space p (H p I))) in E. subst p.
    split; [exact I|]. intros ->. discriminate.
  - intros [I N]. split.
    + exists k. split; [|exact I].
      apply trim_no_space, no_separator_no_space, H, I.
    + destruct k; [congruence | reflexivity].
Qed.

Lemma existsChar_separator_lower (s : string) :
  existsChar isSeparator (toLowerCase s) = existsChar isSeparator s.
Proof.
  induction s as [|c s IH]; simpl; [reflexivity|].
  now rewrite isSeparator_lowerChar, IH.
Qed.

Lemma splitFrom_whole (s : string) :
  existsChar isSeparator s = false -> splitFrom false s = [s].
Proof.
  induction s as [|c s IH]; simpl; [reflexivity|].
  intros H. apply orb_false_iff in H. destruct H as [Hc Hs].
  now rewrite Hc, (IH Hs).
Qed.

(** X14.  The custom keywords that the dashboard makes of the input field
    are the non-empty pieces of the lower-cased input between commas and
    white space: each is non-empty, in lower case, free of commas and white
    space, and a part of the lower-cased input; every such piece is kept;
    and an input without comma and white space is one keyword. *)
Theorem customKeywordsOf_wellformed (keywords : string) :
  (forall k, In k (customKeywordsOf keywords) <->
             In k (splitSeparators (toLowerCase keywords)) /\ k <> "")
  /\ (forall k, In k (customKeywordsOf keywords) ->
                k <> ""
                /\ toLowerCase k = k
                /\ existsChar isSeparator k = false
                /\ isSubstringOf k (toLowerCase keywords))
  /\ (existsChar isSeparator keywords = false ->
      customKeywordsOf keywords
      = if String.eqb keywords "" then [] else [toLowerCase keywords]).
Proof.
  assert (NS : forall p, In p (splitFrom false (toLowerCase keywords)) ->
                         existsChar isSeparator p = false)
    by apply pieces_without_separator.
  assert (M : forall k, In k (customKeywordsOf keywords) <->
                        In k (splitSeparators (toLowerCase keywords)) /\ k <> "").
  { intros k. rewrite customKeywordsOf_eq. now apply keptPieces_In. }
  split; [exact M|]. split.
  - intros k I. apply M in I. destruct I as [I N].
    split; [exact N|]. split.
    + exact (pieces_lower _ (toLowerCase_idem keywords) false k I).
    + split; [now apply NS|].
      now apply (proj2 (pieces_occur (toLowerCase keywords) false)).
  - intros H. rewrite customKeywordsOf_eq.
    rewrite splitFrom_whole by now rewrite existsChar_separator_lower.
    unfold keptPieces. cbn [map filter].
    rewrite trim_no_space
      by (apply no_separator_no_space; now rewrite existsChar_separator_lower).
    destruct keywords; reflexivity.
Qed.







(** X16.  The request that the dashboard's analysis sends has no
    [cvFilePath], so the handler answers it with the status 400 and sends
    no update, whatever the applicant, the keywords and the file are. *)
Theorem handler_refuses_analyzeRequest
  (getDocument : list Byte.byte -> Outcome PDFDocumentProxy)
  (download : string -> string + list Byte.byte)
  (update : string -> ApplicantUpdate -> option string)
  (id keywords : string) :
  handler getDocument download update (analyzeRequest id keywords)
  = {| response := {| status := 400;
                      body := ErrorBody "Missing applicantId or cvFilePath" None |};
       issued := None |}.
Proof.
  unfold handler, analyzeRequest, respond.
  cbn [method json applicantId cvFilePath missing].
  change (String.eqb "POST" "OPTIONS") with false. cbv iota.
  now rewrite orb_true_r.
Qed.

(** X17.  The request of the application form is scored against the
    built-in vocabulary alone: when the file can be downloaded the handler
    sends an update whose keywords and score are the scorer's result
    without custom keywords, and every stored keyword is a built-in one. *)
Theorem handler_on_submissionRequest
  (getDocument : list Byte.byte -> Outcome PDFDocumentProxy)
  (download : string -> string + list Byte.byte)
  (update : string -> ApplicantUpdate -> option string)
  (id fileName : string) (pdfBuffer : list Byte.byte) :
  id <> "" -> fileName <> "" ->
  download fileName = inr pdfBuffer ->
  exists text row,
    extractTextFromPDF getDocument pdfBuffer = Resolved text
    /\ issued (handler getDocument download update (submissionRequest id fileName))
       = Some (id, row)
    /\ calculateKeywordMatch text []
       = Some {| score := keyword_match_score row;
                 matchedKeywords := matched_keywords row |}
    /\ forall k, In k (matched_keywords row) -> In k JOB_KEYWORDS.
Proof.
  intros Ni Nf Hd.
  destruct (extractTextFromPDF_never_rejects getDocument pdfBuffer) as [text Ex].
  unfold handler, submissionRequest.
  cbn [method json applicantId cvFilePath customKeywords missing].
  change (String.eqb "POST" "OPTIONS") with false. cbv iota.
  apply String.eqb_neq in Ni, Nf. rewrite Ni, Nf. cbn [orb].
  exists text.
  rewrite Hd, Ex, calculateKeywordMatch_eq. cbv beta iota zeta.
  cbn [score matchedKeywords].
  eexists. split; [reflexivity|]. split.
  - destruct (update id _); reflexivity.
  - cbn [keyword_match_score matched_keywords]. split; [reflexivity|].
    intros k I.
    destruct (allKeywordsOf_extends []) as [none [E M]].
    apply (proj1 (filter_In _ _ _)) in I. destruct I as [I _].
    rewrite E in I. apply in_app_iff in I. destruct I as [I | I]; [exact I|].
    destruct (M k I) as [[] _].
Qed.

Lemma handler_on_submissionRequest_witness :
  "42" <> "" /\ "cv.pdf" <> ""
  /\ sampleDownload "cv.pdf" = inr (list_byte_of_string "Senior  Python developer ")
  /\ exists text row,
       extractTextFromPDF samplePdfjs (list_byte_of_string "Senior  Python developer ")
       = Resolved text
       /\ issued (handler samplePdfjs sampleDownload sampleUpdate
                    (submissionRequest "42" "cv.pdf")) = Some ("42", row)
       /\ calculateKeywordMatch text []
          = Some {| score := keyword_match_score row;
                    matchedKeywords := matched_keywords row |}
       /\ forall k, In k (matched_keywords row) -> In k JOB_KEYWORDS.
Proof.
  split; [discriminate|]. split; [discriminate|]. split; [reflexivity|].
  exact (handler_on_submissionRequest samplePdfjs sampleDownload sampleUpdate
           "42" "cv.pdf" _ ltac:(discriminate) ltac:(discriminate) eq_refl).
Defined.
